(** * Transit key handlers (builtin/logical/transit/path_keys.go)

    A shallow embedding of the four request handlers of the transit
    backend's [keys/] paths: [pathKeysList], [pathPolicyWrite],
    [pathPolicyRead] and [pathPolicyDelete].

    The handlers talk to three collaborators: the storage behind the
    request, the lock manager [b.lm] and the policy object a lookup hands
    back.  Calls to them are kept symbolic: a handler is a tree of calls
    ([Prog]) and is run against an arbitrary environment that answers them,
    so that what is proved about a handler holds for every behaviour of the
    collaborators.  The run records the calls made, in order. *)

From stdpp Require Import gmap strings list.
From Stdlib Require Import Ascii String ZArith.

Open Scope string_scope.

(** Go's [interface{}] restricted to the dynamic values that travel through
    these handlers. *)
Inductive Value : Type :=
| VString (s : string)
| VBool (b : bool)
| VInt (n : Z)
| VStrings (l : list string).

#[global] Instance Value_eq_dec : EqDecision Value.
Proof. solve_decision. Defined.

(** [[]byte]; the nil slice and the empty slice are both [[]]. *)
Abbreviation bytes := (list ascii).

(** ** package logical *)
Module logical.

(** Go [error] values: the sentinel [ErrInvalidRequest], and errors made
    from a message ([fmt.Errorf], or whatever a collaborator returns). *)
Inductive error : Type :=
| ErrInvalidRequest
| Errorf (msg : string).

#[global] Instance error_eq_dec : EqDecision error.
Proof. solve_decision. Defined.

(** Handle on the physical storage view a request carries. *)
Record Storage : Type := StorageView { storage_id : nat }.

#[global] Instance Storage_eq_dec : EqDecision Storage.
Proof. solve_decision. Defined.

Record Request : Type := { Storage_ : Storage }.

(** [logical.Response], with the two fields the handlers use.  A nil
    [Data] map is the empty map. *)
Record Response : Type := {
  Data : gmap string Value;
  Warnings : list string
}.

Definition emptyResponse : Response := {| Data := ∅; Warnings := [] |}.

(** Modelled from the spec: [logical.ErrorResponse] is not among the
    sources; it is the "invalid-request signal ... surfaced verbatim to
    the caller": a response whose only datum is the message, under the
    key [error]. *)
Definition ErrorResponse (text : string) : Response :=
  {| Data := {[ "error" := VString text ]}; Warnings := [] |}.

Definition IsError (r : Response) : bool :=
  bool_decide (size (Data r) = 1 ∧ is_Some (Data r !! "error")).

(** The message of an error response. *)
Definition error_text (r : Response) : option string :=
  match Data r !! "error" with
  | Some (VString s) => Some s
  | _ => None
  end.

(** Modelled from the spec: [logical.ListResponse] is not among the
    sources; list-names "returns all currently known names", so the
    response carries the listing under the key [keys], and no datum when
    the listing is empty. *)
Definition ListResponse (keys : list string) : Response :=
  {| Data := match keys with
             | [] => ∅
             | _ => {[ "keys" := VStrings keys ]}
             end;
     Warnings := [] |}.

(** The names a list response carries. *)
Definition response_keys (r : Response) : list string :=
  match Data r !! "keys" with
  | Some (VStrings l) => l
  | _ => []
  end.

Definition AddWarning (r : Response) (warning : string) : Response :=
  {| Data := Data r; Warnings := Warnings r ++ [warning] |}.

End logical.

(** ** package framework *)
Module framework.

Inductive FieldType : Type := TypeString | TypeBool.

#[global] Instance FieldType_eq_dec : EqDecision FieldType.
Proof. solve_decision. Defined.

(** [FieldSchema], without the help text. *)
Record FieldSchema : Type := {
  Type_ : FieldType;
  Default : option Value
}.

Record FieldData : Type := {
  Raw : gmap string Value;
  Schema : gmap string FieldSchema
}.

Definition zero (t : FieldType) : Value :=
  match t with
  | TypeString => VString ""
  | TypeBool => VBool false
  end.

Definition DefaultOrZero (s : FieldSchema) : Value :=
  match Default s with
  | Some v => v
  | None => zero (Type_ s)
  end.

Definition has_type (t : FieldType) (v : Value) : bool :=
  match t, v with
  | TypeString, VString _ => true
  | TypeBool, VBool _ => true
  | _, _ => false
  end.

(** Modelled from the spec: [framework.FieldData.Get] is not among the
    sources.  The inbound contract hands the handler the fields of the
    call, and the schema declared in [pathKeys] gives each field a type
    and possibly a [Default]: a supplied value is returned, an omitted
    field yields the schema's default, or the zero value of its type.
    [None] stands for Go's panic: a field outside the schema, or a
    supplied value that is not of the schema's type. *)
Definition Get (d : FieldData) (k : string) : option Value :=
  match Schema d !! k with
  | None => None
  | Some schema =>
      match Raw d !! k with
      | None => Some (DefaultOrZero schema)
      | Some v => if has_type (Type_ schema) v then Some v else None
      end
  end.

End framework.

(** ** package keysutil *)
Module keysutil.
Import logical.

Inductive KeyType : Type :=
| KeyType_AES256_GCM96
| KeyType_ECDSA_P256
| KeyType_ED25519
| KeyType_RSA2048
| KeyType_RSA4096.

#[global] Instance KeyType_eq_dec : EqDecision KeyType.
Proof. solve_decision. Defined.

(** The fields of [PolicyRequest] that [pathPolicyWrite] fills in. *)
Record PolicyRequest : Type := {
  Storage : logical.Storage;
  Name : string;
  KeyType_ : KeyType;
  Derived : bool;
  Convergent : bool;
  Exportable : bool
}.

Definition with_KeyType (r : PolicyRequest) (t : KeyType) : PolicyRequest :=
  {| Storage := Storage r; Name := Name r; KeyType_ := t;
     Derived := Derived r; Convergent := Convergent r;
     Exportable := Exportable r |}.

(** One key version: material and creation time. *)
Record KeyEntry : Type := { Key : bytes; CreationTime : Z }.

(** Modelled from the spec: [keysutil.Policy] is not among the sources;
    the fields are those of the spec's data model (section 3). *)
Record Policy : Type := {
  pName : string;
  pType : KeyType;
  pDerived : bool;
  pConvergent : bool;
  pExportable : bool;
  pVersions : list KeyEntry;
  pLatestVersion : nat
}.

(** The per-name reader/writer lock a lookup hands back
    (a [sync.RWMutex] pointer), identified by the name it guards. *)
Record RWMutex : Type := MutexOf { mutex_name : string }.

#[global] Instance RWMutex_eq_dec : EqDecision RWMutex.
Proof. solve_decision. Defined.

End keysutil.

(** ** Calls to the collaborators *)

Import logical framework keysutil.

Inductive Call : Type :=
| Storage_List (s : logical.Storage) (prefix : string)
| GetPolicyUpsert (req : PolicyRequest)
| GetPolicyShared (s : logical.Storage) (name : string)
| DeletePolicy (s : logical.Storage) (name : string)
| RUnlock (l : RWMutex)
| Policy_Map (p : Policy) (context : bytes).

(** What each call returns, as the Go signatures have it. *)
Definition Ans (c : Call) : Type :=
  match c with
  | Storage_List _ _ => (list string * option error)%type
  | GetPolicyUpsert _ =>
      (option Policy * option RWMutex * bool * option error)%type
  | GetPolicyShared _ _ => (option Policy * option RWMutex * option error)%type
  | DeletePolicy _ _ => option error
  | RUnlock _ => unit
  | Policy_Map _ _ => (gmap string Value * option error)%type
  end.

(** A handler body: it returns, panics, or calls a collaborator and goes on
    with the answer. *)
Inductive Prog (A : Type) : Type :=
| Ret (a : A)
| Panic (msg : string)
| Do (c : Call) (k : Ans c → Prog A).

Arguments Ret {A} a.
Arguments Panic {A} msg.
Arguments Do {A} c k.

Fixpoint bind {A B : Type} (p : Prog A) (f : A → Prog B) : Prog B :=
  match p with
  | Ret a => f a
  | Panic msg => Panic msg
  | Do c k => Do c (λ x, bind (k x) f)
  end.

#[global] Instance Prog_ret : MRet Prog := @Ret.
#[global] Instance Prog_bind : MBind Prog := λ A B f p, bind p f.

Definition call (c : Call) : Prog (Ans c) := Do c Ret.

(** Go's [defer]: [cleanup] runs when the rest of the body is left, by a
    return or by a panic. *)
Fixpoint with_deferred {A : Type} (cleanup : Prog unit) (body : Prog A)
  : Prog A :=
  match body with
  | Ret a => bind cleanup (λ _, Ret a)
  | Panic msg => bind cleanup (λ _, Panic msg)
  | Do c k => Do c (λ x, with_deferred cleanup (k x))
  end.

(** ** Running a handler *)

Record Event : Type := Ev { ev_call : Call; ev_ans : Ans ev_call }.

Inductive Outcome (A : Type) : Type :=
| Returned (a : A)
| Panicked (msg : string).

Arguments Returned {A} a.
Arguments Panicked {A} msg.

Record Run (A W : Type) : Type := {
  outcome : Outcome A;
  trace : list Event;
  final : W
}.

Arguments outcome {A W} r.
Arguments trace {A W} r.
Arguments final {A W} r.

(** The collaborators, over a world [W] of their own. *)
Definition Env (W : Type) : Type := ∀ c : Call, W → Ans c * W.

Fixpoint run {A W : Type} (env : Env W) (p : Prog A) (w : W) : Run A W :=
  match p with
  | Ret a => {| outcome := Returned a; trace := []; final := w |}
  | Panic msg => {| outcome := Panicked msg; trace := []; final := w |}
  | Do c k =>
      let '(x, w') := env c w in
      let r := run env (k x) w' in
      {| outcome := outcome r; trace := Ev c x :: trace r; final := final r |}
  end.

(** ** package transit: the handlers *)

(** [d.Get(k).(string)]: the lookup, then the type assertion; either may
    panic. *)
Definition get_string (d : FieldData) (k : string) : Prog string :=
  match Get d k with
  | Some (VString s) => Ret s
  | Some _ => Panic "interface conversion: interface {} is not string"
  | None => Panic ("error reading " ++ k)
  end.

(** [d.Get(k).(bool)]. *)
Definition get_bool (d : FieldData) (k : string) : Prog bool :=
  match Get d k with
  | Some (VBool b) => Ret b
  | Some _ => Panic "interface conversion: interface {} is not bool"
  | None => Panic ("error reading " ++ k)
  end.

(** The [Fields] of [pathKeys]: only [type] declares a default. *)
Definition pathKeys_Fields : gmap string FieldSchema :=
  list_to_map [
    ("name", {| Type_ := TypeString; Default := None |});
    ("type", {| Type_ := TypeString;
                Default := Some (VString "aes256-gcm96") |});
    ("derived", {| Type_ := TypeBool; Default := None |});
    ("convergent_encryption", {| Type_ := TypeBool; Default := None |});
    ("exportable", {| Type_ := TypeBool; Default := None |});
    ("context", {| Type_ := TypeString; Default := None |})
  ].

(** The field data the framework builds for a request on [keys/<name>]. *)
Definition fieldData (raw : gmap string Value) : FieldData :=
  {| Raw := raw; Schema := pathKeys_Fields |}.

(** The [switch keyType] of [pathPolicyWrite]; [None] is its [default]
    branch. *)
Definition keyType_of (keyType : string) : option KeyType :=
  if String.eqb keyType "aes256-gcm96" then Some KeyType_AES256_GCM96
  else if String.eqb keyType "ecdsa-p256" then Some KeyType_ECDSA_P256
  else if String.eqb keyType "ed25519" then Some KeyType_ED25519
  else if String.eqb keyType "rsa-2048" then Some KeyType_RSA2048
  else if String.eqb keyType "rsa-4096" then Some KeyType_RSA4096
  else None.

(** What a handler returns: a [logical.Response] pointer, nil being
    [None], and an [error], nil being [None]. *)
Abbreviation Result := (option Response * option error)%type.

(** [if lock != nil { defer lock.RUnlock() }] *)
Definition unlock_if_held (lock : option RWMutex) : Prog unit :=
  match lock with
  | Some l => call (RUnlock l)
  | None => Ret tt
  end.

Definition pathKeysList (req : Request) (d : FieldData) : Prog Result :=
  '(entries, err) ← call (Storage_List (Storage_ req) "policy/");
  match err with
  | Some e => Ret (None, Some e)
  | None => Ret (Some (ListResponse entries), None)
  end.

Definition pathPolicyWrite (req : Request) (d : FieldData) : Prog Result :=
  name ← get_string d "name";
  derived ← get_bool d "derived";
  convergent ← get_bool d "convergent_encryption";
  keyType ← get_string d "type";
  exportable ← get_bool d "exportable";
  if negb derived && convergent then
    Ret (Some (ErrorResponse
                 "convergent encryption requires derivation to be enabled"),
         None)
  else
    let polReq :=
      {| Storage := Storage_ req; Name := name;
         KeyType_ := KeyType_AES256_GCM96;
         Derived := derived; Convergent := convergent;
         Exportable := exportable |} in
    match keyType_of keyType with
    | None =>
        Ret (Some (ErrorResponse ("unknown key type " ++ keyType)),
             Some ErrInvalidRequest)
    | Some t =>
        let polReq := with_KeyType polReq t in
        '(p, lock, upserted, err) ← call (GetPolicyUpsert polReq);
        with_deferred (unlock_if_held lock)
          match err with
          | Some e => Ret (None, Some e)
          | None =>
              match p with
              | None =>
                  Ret (None,
                       Some (Errorf
                         "error generating key: returned policy was nil"))
              | Some _ =>
                  let resp := emptyResponse in
                  let resp :=
                    if negb upserted
                    then AddWarning resp ("key " ++ name ++ " already existed")
                    else resp in
                  Ret (None, None)
              end
          end
    end.

Section Read.

(** [base64.StdEncoding.DecodeString], from Go's library; [None] is its
    error. *)
Variable DecodeString : string → option bytes.

Definition pathPolicyRead (req : Request) (d : FieldData) : Prog Result :=
  name ← get_string d "name";
  '(p, lock, err) ← call (GetPolicyShared (Storage_ req) name);
  with_deferred (unlock_if_held lock)
    match err with
    | Some e => Ret (None, Some e)
    | None =>
        match p with
        | None => Ret (None, None)
        | Some p =>
            contextRaw ← get_string d "context";
            let decoded :=
              if Nat.eqb (String.length contextRaw) 0 then Some []
              else DecodeString contextRaw in
            match decoded with
            | None =>
                Ret (Some (ErrorResponse "failed to base64-decode context"),
                     Some ErrInvalidRequest)
            | Some context =>
                '(respData, err) ← call (Policy_Map p context);
                match err with
                | Some e => Ret (None, Some e)
                | None =>
                    Ret (Some {| Data := respData; Warnings := [] |}, None)
                end
            end
        end
    end.

End Read.

(** [err.Error()], which the verb [%s] prints: the message an error was
    made from; the sentinel's is "invalid request". *)
Definition Error (e : error) : string :=
  match e with
  | ErrInvalidRequest => "invalid request"
  | Errorf msg => msg
  end.

Definition pathPolicyDelete (req : Request) (d : FieldData) : Prog Result :=
  name ← get_string d "name";
  (* Delete does its own locking *)
  err ← call (DeletePolicy (Storage_ req) name);
  match err with
  | Some e =>
      Ret (Some (ErrorResponse
                   ("error deleting policy " ++ name ++ ": " ++ Error e)),
           Some e)
  | None => Ret (None, None)
  end.

(** ** The paths and their callbacks *)

Inductive Operation : Type :=
| CreateOperation
| ReadOperation
| UpdateOperation
| DeleteOperation
| ListOperation
| HelpOperation.

Abbreviation OperationFunc := (Request → FieldData → Prog Result).

(** [framework.Path], without the pattern and the help texts. *)
Record Path : Type := {
  Fields : gmap string FieldSchema;
  Callbacks : Operation → option OperationFunc
}.

Definition pathListKeys : Path :=
  {| Fields := ∅;
     Callbacks := λ op,
       match op with
       | ListOperation => Some pathKeysList
       | _ => None
       end |}.

Definition pathKeys (DecodeString : string → option bytes) : Path :=
  {| Fields := pathKeys_Fields;
     Callbacks := λ op,
       match op with
       | UpdateOperation => Some pathPolicyWrite
       | DeleteOperation => Some pathPolicyDelete
       | ReadOperation => Some (pathPolicyRead DecodeString)
       | _ => None
       end |}.

(** ** Go's standard base64 decoding *)
Module base64.

(** The value of a character of the standard alphabet. *)
Definition sextet (c : ascii) : option N :=
  let n := N_of_ascii c in
  if (65 <=? n)%N && (n <=? 90)%N then Some (n - 65)%N
  else if (97 <=? n)%N && (n <=? 122)%N then Some (n - 71)%N
  else if (48 <=? n)%N && (n <=? 57)%N then Some (n + 4)%N
  else if (n =? 43)%N then Some 62%N
  else if (n =? 47)%N then Some 63%N
  else None.

Definition is_newline (c : ascii) : bool :=
  let n := N_of_ascii c in (n =? 10)%N || (n =? 13)%N.

Definition is_pad (c : ascii) : bool := (N_of_ascii c =? 61)%N.

Definition octet (n : N) : ascii := ascii_of_N (n mod 256).

(** The bytes of one quantum of four sextets, of which the first [n] are
    kept. *)
Definition quantum (a b c d : N) (n : nat) : bytes :=
  let v := (a * 262144 + b * 4096 + c * 64 + d)%N in
  take n [octet (v / 65536); octet (v / 256); octet v].

(** Quanta of four characters; only the last may be padded, with one or
    two [=]. *)
Fixpoint decode_quanta (l : list ascii) : option bytes :=
  match l with
  | [] => Some []
  | a :: b :: c :: d :: rest =>
      match sextet a, sextet b with
      | Some x, Some y =>
          match sextet c, sextet d, rest with
          | Some z, Some t, _ =>
              app (quantum x y z t 3) <$> decode_quanta rest
          | Some z, None, [] =>
              if is_pad d then Some (quantum x y z 0 2) else None
          | None, None, [] =>
              if is_pad c && is_pad d then Some (quantum x y 0 0 1) else None
          | _, _, _ => None
          end
      | _, _ => None
      end
  | _ => None
  end.

(** [StdEncoding.DecodeString]: carriage returns and line feeds are
    skipped, padding is required. *)
Definition DecodeString (s : string) : option bytes :=
  decode_quanta (filter (λ c, negb (is_newline c)) (list_ascii_of_string s)).

End base64.

(** ** A lock manager to run the handlers against *)
Module lockmanager.

(** Modelled from the spec: [keysutil.LockManager] and the storage behind
    it are not among the sources.  The world holds the durable map of
    stored policies (under the [policy/] prefix), the in-memory cache of
    the policy store, the number of shared holders of each per-name lock, a
    failure the storage collaborator currently signals (if any), and a
    clock from which creation times and key material are drawn. *)
Record World : Type := {
  stored : gmap string Policy;
  cache : gmap string Policy;
  readers : gmap string nat;
  storage_failure : option error;
  clock : Z
}.

Definition empty : World :=
  {| stored := ∅; cache := ∅; readers := ∅;
     storage_failure := None; clock := 0 |}.

Definition rlock (name : string) (w : World) : World :=
  {| stored := stored w; cache := cache w;
     readers := <[name := S (default 0 (readers w !! name))]> (readers w);
     storage_failure := storage_failure w; clock := clock w |}.

Definition runlock (name : string) (w : World) : World :=
  {| stored := stored w; cache := cache w;
     readers := <[name := pred (default 0 (readers w !! name))]> (readers w);
     storage_failure := storage_failure w; clock := clock w |}.

(** Modelled from the spec: a new policy has the request's parameters and
    "one generated key version". *)
Definition new_policy (req : PolicyRequest) (now : Z) : Policy :=
  {| pName := Name req; pType := KeyType_ req; pDerived := Derived req;
     pConvergent := Convergent req; pExportable := Exportable req;
     pVersions := [ {| Key := [ascii_of_N (Z.to_N now mod 256)];
                       CreationTime := now |} ];
     pLatestVersion := 1 |}.

(** Modelled from the spec: the policy under [name], from the cache or else
    from storage; a storage failure is reported when storage has to be
    consulted. *)
Definition find (name : string) (w : World) : option Policy + error :=
  match cache w !! name with
  | Some p => inl (Some p)
  | None =>
      match storage_failure w with
      | Some e => inr e
      | None => inl (stored w !! name)
      end
  end.

(** Modelled from the spec: CreateOrGet (section 4.3).  An existing policy
    is handed back untouched with [wasCreated = false]; otherwise one is
    made, written to storage, cached, and handed back with [wasCreated =
    true]; in both cases under a shared hold of the name's lock.  On a
    storage failure nothing is cached and no lock is handed back. *)
Definition getPolicyUpsert (req : PolicyRequest) (w : World)
  : Ans (GetPolicyUpsert req) * World :=
  match find (Name req) w with
  | inr e => ((None, None, false, Some e), w)
  | inl (Some p) =>
      ((Some p, Some (MutexOf (Name req)), false, None), rlock (Name req) w)
  | inl None =>
      match storage_failure w with
      | Some e => ((None, None, false, Some e), w)
      | None =>
          let p := new_policy req (clock w) in
          ((Some p, Some (MutexOf (Name req)), true, None),
           rlock (Name req)
             {| stored := <[Name req := p]> (stored w);
                cache := <[Name req := p]> (cache w);
                readers := readers w;
                storage_failure := storage_failure w;
                clock := (clock w + 1)%Z |})
      end
  end.

(** Modelled from the spec: GetShared (section 4.3): a shared hold over the
    policy when it exists, nothing when the name is unknown. *)
Definition getPolicyShared (name : string) (w : World)
  : Ans (GetPolicyShared (StorageView 0) name) * World :=
  match find name w with
  | inr e => ((None, None, Some e), w)
  | inl (Some p) => ((Some p, Some (MutexOf name), None), rlock name w)
  | inl None => ((None, None, None), w)
  end.

(** Modelled from the spec: Delete (section 4.3): the policy leaves the
    cache and the storage; an unknown name is a success. *)
Definition deletePolicy (name : string) (w : World) : option error * World :=
  match storage_failure w with
  | Some e => (Some e, w)
  | None =>
      (None,
       {| stored := delete name (stored w); cache := delete name (cache w);
          readers := readers w; storage_failure := storage_failure w;
          clock := clock w |})
  end.

(** Modelled from the spec: the storage collaborator's [list(prefix)]; the
    policies are the entries under [policy/]. *)
Definition storageList (prefix : string) (w : World)
  : list string * option error :=
  match storage_failure w with
  | Some e => ([], Some e)
  | None =>
      (if String.eqb prefix "policy/" then (map_to_list (stored w)).*1 else [],
       None)
  end.

Definition name_of_KeyType (t : KeyType) : string :=
  match t with
  | KeyType_AES256_GCM96 => "aes256-gcm96"
  | KeyType_ECDSA_P256 => "ecdsa-p256"
  | KeyType_ED25519 => "ed25519"
  | KeyType_RSA2048 => "rsa-2048"
  | KeyType_RSA4096 => "rsa-4096"
  end.

(** Modelled from the spec: the read-response shape (section 6), without
    key material. *)
Definition policyMap (p : Policy) (context : bytes) : gmap string Value :=
  list_to_map [
    ("name", VString (pName p));
    ("type", VString (name_of_KeyType (pType p)));
    ("derived", VBool (pDerived p));
    ("convergent_encryption", VBool (pConvergent p));
    ("exportable", VBool (pExportable p));
    ("latest_version", VInt (Z.of_nat (pLatestVersion p)))
  ].

Definition env : Env World :=
  λ c,
    match c return World → Ans c * World with
    | Storage_List _ prefix => λ w, (storageList prefix w, w)
    | GetPolicyUpsert req => getPolicyUpsert req
    | GetPolicyShared _ name => getPolicyShared name
    | DeletePolicy _ name => deletePolicy name
    | RUnlock l => λ w, (tt, runlock (mutex_name l) w)
    | Policy_Map p context => λ w, ((policyMap p context, None), w)
    end.

End lockmanager.

(** ** Vocabulary of the properties *)

(** The five fields [pathPolicyWrite] reads, as values. *)
Record WriteFields : Type := {
  f_name : string;
  f_derived : bool;
  f_convergent : bool;
  f_type : string;
  f_exportable : bool
}.

(** The field data [d] carries the create-or-get request [f]. *)
Definition carries (d : FieldData) (f : WriteFields) : Prop :=
  Get d "name" = Some (VString (f_name f))
  ∧ Get d "derived" = Some (VBool (f_derived f))
  ∧ Get d "convergent_encryption" = Some (VBool (f_convergent f))
  ∧ Get d "type" = Some (VString (f_type f))
  ∧ Get d "exportable" = Some (VBool (f_exportable f)).

(** The key-type identifiers the help text of [pathKeys] lists. *)
Definition supported_types : list string :=
  ["aes256-gcm96"; "ecdsa-p256"; "ed25519"; "rsa-2048"; "rsa-4096"].

(** [sub] occurs in [s]. *)
Fixpoint contains (sub s : string) : bool :=
  String.prefix sub s ||
  match s with
  | EmptyString => false
  | String _ s' => contains sub s'
  end.

(** The lock an event hands to the handler, if any. *)
Definition acquired_by (e : Event) : option RWMutex :=
  match ev_call e as c return Ans c → option RWMutex with
  | GetPolicyUpsert _ => λ '(_, lock, _, _), lock
  | GetPolicyShared _ _ => λ '(_, lock, _), lock
  | _ => λ _, None
  end (ev_ans e).

(** The lock an event releases, if any. *)
Definition released_by (e : Event) : option RWMutex :=
  match ev_call e with
  | RUnlock l => Some l
  | _ => None
  end.

(** Giving up one hold of [l]; [None] when [l] is not held. *)
Fixpoint release (l : RWMutex) (held : list RWMutex)
  : option (list RWMutex) :=
  match held with
  | [] => None
  | h :: hs => if decide (h = l) then Some hs else cons h <$> release l hs
  end.

(** The holds left after a trace, starting from [held]; [None] when the
    trace releases a lock that is not held at that point. *)
Fixpoint held_after (held : list RWMutex) (t : list Event)
  : option (list RWMutex) :=
  match t with
  | [] => Some held
  | e :: t' =>
      match released_by e with
      | Some l => release l held ≫= λ held', held_after held' t'
      | None =>
          held_after
            (match acquired_by e with Some l => l :: held | None => held end)
            t'
      end
  end.

(** The calls of a trace that reach the policy store or the storage:
    everything but the release of a lock. *)
Definition is_store_call (e : Event) : bool :=
  match ev_call e with
  | RUnlock _ => false
  | _ => true
  end.

(** The warnings the caller of a handler gets to see: those of the
    response returned, none when no response is returned. *)
Definition visible_warnings (o : Outcome Result) : list string :=
  match o with
  | Returned (Some resp, _) => Warnings resp
  | _ => []
  end.

(** What the lock manager reported on create-or-get calls: the
    [upserted] flag of each answer. *)
Definition upserted_by (e : Event) : option bool :=
  match ev_call e as c return Ans c → option bool with
  | GetPolicyUpsert _ => λ '(_, _, upserted, _), Some upserted
  | _ => λ _, None
  end (ev_ans e).

(** The request and the inputs used in the examples. *)
Definition request0 : Request := {| Storage_ := StorageView 0 |}.

Definition orders_key : gmap string Value :=
  list_to_map [ ("name", VString "orders-key"); ("derived", VBool true);
                ("convergent_encryption", VBool true) ].

(** ** Requests in sequence *)

(** Modelled from the spec: the request-routing layer is not among the
    sources; it "parses incoming operations into structured calls": the
    callback the path registers for the operation is called with the
    request and with the supplied fields under the path's schema.  [None]:
    the path has no callback for the operation, and no handler runs. *)
Definition HandleRequest (p : Path) (op : Operation) (req : Request)
    (raw : gmap string Value) : option (Prog Result) :=
  (λ f, f req {| Raw := raw; Schema := Fields p |}) <$> Callbacks p op.

(** The two paths of this file. *)
Inductive Route : Type := keys_list | keys_name.

Definition path_of (DecodeString : string → option bytes) (r : Route)
  : Path :=
  match r with
  | keys_list => pathListKeys
  | keys_name => pathKeys DecodeString
  end.

Record Incoming : Type := {
  route : Route;
  operation : Operation;
  request : Request;
  raw : gmap string Value
}.

(** The requests served one after the other, each in the world the one
    before left; the calls of all of them, in order. *)
Fixpoint serve {W : Type} (DecodeString : string → option bytes)
    (env : Env W) (reqs : list Incoming) (w : W) : list Event * W :=
  match reqs with
  | [] => ([], w)
  | i :: rest =>
      match HandleRequest (path_of DecodeString (route i)) (operation i)
              (request i) (raw i) with
      | None => serve DecodeString env rest w
      | Some handler =>
          let r := run env handler w in
          let '(t, w') := serve DecodeString env rest (final r) in
          (app (trace r) t, w')
      end
  end.

(** The collaborator's operation a call is to. *)
Inductive CallKind : Type :=
| to_Storage_List
| to_GetPolicyUpsert
| to_GetPolicyShared
| to_DeletePolicy
| to_RUnlock
| to_Policy_Map.

#[global] Instance CallKind_eq_dec : EqDecision CallKind.
Proof. solve_decision. Defined.

Definition kind_of (c : Call) : CallKind :=
  match c with
  | Storage_List _ _ => to_Storage_List
  | GetPolicyUpsert _ => to_GetPolicyUpsert
  | GetPolicyShared _ _ => to_GetPolicyShared
  | DeletePolicy _ _ => to_DeletePolicy
  | RUnlock _ => to_RUnlock
  | Policy_Map _ _ => to_Policy_Map
  end.

(** The kinds of the calls of a trace, in order. *)
Definition kinds (t : list Event) : list CallKind :=
  (λ e, kind_of (ev_call e)) <$> t.

(** A supplied value fits the schema: the field is not declared, or the
    value has the declared type. *)
Definition field_ok (d : FieldData) (k : string) (v : Value) : bool :=
  match Schema d !! k with
  | Some schema => has_type (Type_ schema) v
  | None => true
  end.

(** Modelled from the spec: the framework's validation of the supplied
    fields is not among the sources; the handlers are called on "structured
    calls": every supplied field the schema declares has a value of the
    declared type. *)
Definition validated (d : FieldData) : bool :=
  bool_decide (map_Forall (λ k v, field_ok d k v = true) (Raw d)).

(** Collaborators that answer every call with nil: no entries, no policy,
    no lock, no error.  An environment for the examples. *)
Definition nil_env : Env unit :=
  λ c,
    match c return unit → Ans c * unit with
    | Storage_List _ _ => λ w, (([], None), w)
    | GetPolicyUpsert _ => λ w, ((None, None, false, None), w)
    | GetPolicyShared _ _ => λ w, ((None, None, None), w)
    | DeletePolicy _ _ => λ w, (None, w)
    | RUnlock _ => λ w, (tt, w)
    | Policy_Map _ _ => λ w, ((∅, None), w)
    end.

(** Collaborators whose lookup finds [p], without a lock, and whose [Map]
    fails with [e].  An environment for the examples. *)
Definition map_fails_env (p : Policy) (e : error) : Env unit :=
  λ c,
    match c return unit → Ans c * unit with
    | GetPolicyShared _ _ => λ w, ((Some p, None, None), w)
    | Policy_Map _ _ => λ w, ((∅, Some e), w)
    | c' => nil_env c'
    end.

(** * Properties *)

(** The lock discipline on three small traces: a release with nothing
    held, a hold that is never released, a second release of one hold. *)
Example release_without_hold :
  held_after [] [Ev (RUnlock (MutexOf "k")) tt] = None.
Proof. reflexivity. Qed.

Example hold_left_over :
  held_after []
    [Ev (GetPolicyShared (StorageView 0) "k") (None, Some (MutexOf "k"), None)]
  = Some [MutexOf "k"].
Proof. reflexivity. Qed.

Example released_twice :
  held_after []
    [Ev (GetPolicyShared (StorageView 0) "k") (None, Some (MutexOf "k"), None);
     Ev (RUnlock (MutexOf "k")) tt; Ev (RUnlock (MutexOf "k")) tt]
  = None.
Proof. reflexivity. Qed.

(** Standard base64: padding is required, line breaks are skipped. *)
Example decode_order_42 :
  base64.DecodeString "b3JkZXItNDI=" = Some (list_ascii_of_string "order-42").
Proof. reflexivity. Qed.

Example decode_unpadded : base64.DecodeString "b3JkZQ" = None.
Proof. reflexivity. Qed.

Lemma keyType_of_supported (keyType : string) :
  keyType_of keyType = None ↔ keyType ∉ supported_types.
Proof.
  unfold keyType_of, supported_types.
  rewrite !not_elem_of_cons.
  repeat match goal with
         | |- context [String.eqb keyType ?s] =>
             destruct (String.eqb_spec keyType s) as [-> | ?];
             [ split; [ discriminate | intros H; exfalso; intuition congruence ]
             | ]
         end.
  split; [ intros _ | done ].
  repeat split; try done. apply not_elem_of_nil.
Qed.

Lemma prefix_refl (s : string) : String.prefix s s = true.
Proof.
  induction s as [ | c s IH ]; simpl; [ done | ].
  destruct (ascii_dec c c); [ done | congruence ].
Qed.

Lemma contains_append (pre sub : string) : contains sub (pre ++ sub) = true.
Proof.
  induction pre as [ | c pre IH ]; simpl.
  - destruct sub; simpl; [ done | ].
    rewrite prefix_refl.
    destruct (ascii_dec _ _); [ done | congruence ].
  - rewrite IH. apply orb_true_r.
Qed.

(** Reading the five fields of a request that [d] carries. *)
Ltac read_fields H :=
  destruct H as (Hname & Hderived & Hconvergent & Htype & Hexportable);
  unfold pathPolicyWrite, get_string, get_bool;
  rewrite Hname, Hderived, Hconvergent, Htype, Hexportable; simpl.

Lemma IsError_ErrorResponse (text : string) :
  IsError (ErrorResponse text) = true.
Proof.
  unfold IsError, ErrorResponse; simpl.
  apply bool_decide_eq_true. split.
  - apply map_size_singleton.
  - rewrite lookup_singleton_eq. eauto.
Qed.

Lemma error_text_ErrorResponse (text : string) :
  error_text (ErrorResponse text) = Some text.
Proof.
  unfold error_text, ErrorResponse; simpl. by rewrite lookup_singleton_eq.
Qed.

(** The first rule of [pathPolicyWrite]: the whole handler is one return. *)
Lemma pathPolicyWrite_convergent (req : Request) (d : FieldData)
    (f : WriteFields) :
  carries d f →
  f_convergent f = true →
  f_derived f = false →
  pathPolicyWrite req d =
    Ret (Some (ErrorResponse
                 "convergent encryption requires derivation to be enabled"),
         None).
Proof.
  intros Hd Hc Hn. read_fields Hd. rewrite Hc, Hn. reflexivity.
Qed.

(** The second rule: past the first, an identifier outside the switch ends
    the handler at the [default] branch. *)
Lemma pathPolicyWrite_unknown_type (req : Request) (d : FieldData)
    (f : WriteFields) :
  carries d f →
  negb (f_derived f) && f_convergent f = false →
  keyType_of (f_type f) = None →
  pathPolicyWrite req d =
    Ret (Some (ErrorResponse ("unknown key type " ++ f_type f)),
         Some ErrInvalidRequest).
Proof.
  intros Hd Hc Ht. read_fields Hd. rewrite Hc, Ht. reflexivity.
Qed.

(** C2: a create-or-get request with convergent = true and derived = false
    is answered by the error response "convergent encryption requires
    derivation to be enabled", with no Go error, and the handler body is
    that return alone: under every environment no call reaches the lock
    manager or the storage, and the world is left as it was. *)
Theorem convergent_requires_derivation
    {W : Type} (env : Env W) (w : W) (req : Request) (d : FieldData)
    (f : WriteFields) :
  carries d f →
  f_convergent f = true →
  f_derived f = false →
  let msg := "convergent encryption requires derivation to be enabled" in
  let r := run env (pathPolicyWrite req d) w in
  pathPolicyWrite req d = Ret (Some (ErrorResponse msg), None)
  ∧ outcome r = Returned (Some (ErrorResponse msg), None)
  ∧ IsError (ErrorResponse msg) = true
  ∧ String.prefix "convergent encryption requires derivation" msg = true
  ∧ trace r = []
  ∧ final r = w.
Proof.
  intros Hd Hc Hn msg r.
  pose proof (pathPolicyWrite_convergent req d f Hd Hc Hn) as E.
  subst r. rewrite E. cbn [run outcome trace final].
  split; [ reflexivity | ]. split; [ reflexivity | ].
  split; [ apply IsError_ErrorResponse | ].
  split; [ reflexivity | ]. split; reflexivity.
Qed.

Lemma convergent_requires_derivation_witness :
  let d := fieldData (<["derived" := VBool false]> orders_key) in
  let r := run lockmanager.env (pathPolicyWrite request0 d) lockmanager.empty in
  outcome r =
    Returned
      (Some (ErrorResponse
               "convergent encryption requires derivation to be enabled"),
       None)
  ∧ trace r = []
  ∧ final r = lockmanager.empty.
Proof.
  intros d r.
  destruct (convergent_requires_derivation lockmanager.env lockmanager.empty
              request0 d
              {| f_name := "orders-key"; f_derived := false;
                 f_convergent := true; f_type := "aes256-gcm96";
                 f_exportable := false |})
    as (_ & Ho & _ & _ & Ht & Hf).
  - repeat split; vm_compute; reflexivity.
  - reflexivity.
  - reflexivity.
  - repeat split; assumption.
Defined.

(** C3, as stated, fails: with type "foo", convergent = true and derived =
    false the request is turned down by the convergence rule, and the
    message of that response does not carry "foo". *)
Lemma unknown_type_behind_convergence_rule :
  let d := fieldData (<["type" := VString "foo"]>
                        (<["derived" := VBool false]> orders_key)) in
  let msg := "convergent encryption requires derivation to be enabled" in
  Get d "type" = Some (VString "foo")
  ∧ keyType_of "foo" = None
  ∧ pathPolicyWrite request0 d = Ret (Some (ErrorResponse msg), None)
  ∧ error_text (ErrorResponse msg) = Some msg
  ∧ contains "foo" msg = false.
Proof. repeat split; vm_compute; reflexivity. Qed.

(** C3, amended: a create-or-get request that passes the convergence rule
    (not both convergent = true and derived = false) and whose type string
    is none of aes256-gcm96, ecdsa-p256, ed25519, rsa-2048, rsa-4096 is
    answered by the error response "unknown key type <type>" together with
    [ErrInvalidRequest]; the message carries the type string, and under
    every environment no call reaches the lock manager or the storage. *)
Theorem unknown_type_rejected
    {W : Type} (env : Env W) (w : W) (req : Request) (d : FieldData)
    (f : WriteFields) :
  carries d f →
  ¬ (f_convergent f = true ∧ f_derived f = false) →
  f_type f ∉ supported_types →
  let msg := "unknown key type " ++ f_type f in
  let r := run env (pathPolicyWrite req d) w in
  pathPolicyWrite req d = Ret (Some (ErrorResponse msg), Some ErrInvalidRequest)
  ∧ outcome r = Returned (Some (ErrorResponse msg), Some ErrInvalidRequest)
  ∧ IsError (ErrorResponse msg) = true
  ∧ error_text (ErrorResponse msg) = Some msg
  ∧ contains (f_type f) msg = true
  ∧ trace r = []
  ∧ final r = w.
Proof.
  intros Hd Hc Ht msg r.
  assert (negb (f_derived f) && f_convergent f = false) as Hc'.
  { destruct (f_derived f), (f_convergent f); simpl; try done.
    exfalso. by apply Hc. }
  apply keyType_of_supported in Ht.
  pose proof (pathPolicyWrite_unknown_type req d f Hd Hc' Ht) as E.
  subst r. rewrite E. cbn [run outcome trace final].
  split; [ reflexivity | ]. split; [ reflexivity | ].
  split; [ apply IsError_ErrorResponse | ].
  split; [ apply error_text_ErrorResponse | ].
  split; [ apply contains_append | ]. split; reflexivity.
Qed.

Lemma unknown_type_rejected_witness :
  let d := fieldData (<["type" := VString "foo"]> orders_key) in
  let r := run lockmanager.env (pathPolicyWrite request0 d) lockmanager.empty in
  outcome r =
    Returned (Some (ErrorResponse "unknown key type foo"),
              Some ErrInvalidRequest)
  ∧ trace r = []
  ∧ final r = lockmanager.empty.
Proof.
  intros d r.
  destruct (unknown_type_rejected lockmanager.env lockmanager.empty
              request0 d
              {| f_name := "orders-key"; f_derived := true;
                 f_convergent := true; f_type := "foo";
                 f_exportable := false |})
    as (_ & Ho & _ & _ & _ & Ht & Hf).
  - repeat split; vm_compute; reflexivity.
  - simpl. intros [_ H]. discriminate H.
  - apply keyType_of_supported. vm_compute; reflexivity.
  - repeat split; assumption.
Defined.

(** C4: the rules are checked in order: a create-or-get request that has
    convergent = true with derived = false and also an unrecognized type
    string is answered by the convergence error, not by the unknown key
    type error. *)
Theorem convergence_rule_first
    {W : Type} (env : Env W) (w : W) (req : Request) (d : FieldData)
    (f : WriteFields) :
  carries d f →
  f_convergent f = true →
  f_derived f = false →
  f_type f ∉ supported_types →
  let r := run env (pathPolicyWrite req d) w in
  outcome r =
    Returned
      (Some (ErrorResponse
               "convergent encryption requires derivation to be enabled"),
       None)
  ∧ outcome r ≠
      Returned (Some (ErrorResponse ("unknown key type " ++ f_type f)),
                Some ErrInvalidRequest).
Proof.
  intros Hd Hc Hn _ r. subst r.
  rewrite (pathPolicyWrite_convergent req d f Hd Hc Hn). simpl.
  split; [ reflexivity | discriminate ].
Qed.

Lemma convergence_rule_first_witness :
  let d := fieldData (<["type" := VString "foo"]>
                        (<["derived" := VBool false]> orders_key)) in
  let r := run lockmanager.env (pathPolicyWrite request0 d) lockmanager.empty in
  outcome r =
    Returned
      (Some (ErrorResponse
               "convergent encryption requires derivation to be enabled"),
       None)
  ∧ outcome r ≠
      Returned (Some (ErrorResponse "unknown key type foo"),
                Some ErrInvalidRequest).
Proof.
  intros d r.
  apply (convergence_rule_first lockmanager.env lockmanager.empty request0 d
           {| f_name := "orders-key"; f_derived := false;
              f_convergent := true; f_type := "foo";
              f_exportable := false |}).
  - repeat split; vm_compute; reflexivity.
  - reflexivity.
  - reflexivity.
  - apply keyType_of_supported. vm_compute; reflexivity.
Defined.

Lemma Get_type_default (raw : gmap string Value) (k : string) :
  raw !! "type" = None →
  Get (fieldData (<["type" := VString "aes256-gcm96"]> raw)) k =
  Get (fieldData raw) k.
Proof.
  intros Hraw. unfold Get, fieldData; simpl.
  destruct (decide (k = "type")) as [-> | Hk].
  - rewrite lookup_insert_eq, Hraw.
    replace (pathKeys_Fields !! "type")
      with (Some {| Type_ := TypeString;
                    Default := Some (VString "aes256-gcm96") |})
      by (vm_compute; reflexivity).
    reflexivity.
  - by rewrite lookup_insert_ne.
Qed.

(** C10: a create-or-get request that omits the type field reads its key
    type as "aes256-gcm96", the default the schema of [pathKeys] declares.
    The handler is then the same program as for the request with type =
    "aes256-gcm96" supplied, and when the request passes the convergence
    rule, the request the handler hands to [GetPolicyUpsert], under every
    environment, carries the key type [KeyType_AES256_GCM96] together with
    the name and the flags supplied; the release of the lock handed out is
    the only other call. *)
Theorem type_defaults_to_aes256_gcm96
    (req : Request) (raw : gmap string Value) :
  raw !! "type" = None →
  Get (fieldData raw) "type" = Some (VString "aes256-gcm96")
  ∧ pathPolicyWrite req (fieldData raw) =
    pathPolicyWrite req
      (fieldData (<["type" := VString "aes256-gcm96"]> raw))
  ∧ ∀ (W : Type) (env : Env W) (w : W) (f : WriteFields),
      carries (fieldData raw) f →
      negb (f_derived f) && f_convergent f = false →
      let upsert :=
        GetPolicyUpsert
          {| Storage := Storage_ req; Name := f_name f;
             KeyType_ := KeyType_AES256_GCM96;
             Derived := f_derived f; Convergent := f_convergent f;
             Exportable := f_exportable f |} in
      trace (run env (pathPolicyWrite req (fieldData raw)) w)
      = Ev upsert (env upsert w).1
          :: match (env upsert w).1 with
             | (_, Some l, _, _) => [Ev (RUnlock l) tt]
             | _ => []
             end.
Proof.
  intros Hraw.
  assert (Get (fieldData raw) "type" = Some (VString "aes256-gcm96"))
    as Hdefault.
  { unfold Get, fieldData; simpl. rewrite Hraw.
    replace (pathKeys_Fields !! "type")
      with (Some {| Type_ := TypeString;
                    Default := Some (VString "aes256-gcm96") |})
      by (vm_compute; reflexivity).
    reflexivity. }
  split; [ exact Hdefault | split ].
  - unfold pathPolicyWrite, get_string, get_bool.
    rewrite (Get_type_default raw "name" Hraw),
      (Get_type_default raw "derived" Hraw),
      (Get_type_default raw "convergent_encryption" Hraw),
      (Get_type_default raw "type" Hraw),
      (Get_type_default raw "exportable" Hraw).
    reflexivity.
  - intros W env w f Hd Hc upsert.
    assert (f_type f = "aes256-gcm96") as Hf.
    { destruct Hd as (_ & _ & _ & Ht & _). rewrite Hdefault in Ht.
      by injection Ht. }
    read_fields Hd. rewrite Hc, Hf.
    change (keyType_of "aes256-gcm96") with (Some KeyType_AES256_GCM96).
    cbn [mbind Prog_bind bind call run]. unfold with_KeyType.
    cbn [Storage Name Derived Convergent Exportable]. fold upsert.
    destruct (env upsert w) as [[[[p lock] upserted] err] w'].
    destruct lock as [l | ], err as [e | ], p as [p | ];
      cbn [with_deferred unlock_if_held call bind run trace fst];
      try destruct (env (RUnlock l) w') as [[] w''];
      reflexivity.
Qed.

Lemma type_defaults_to_aes256_gcm96_witness :
  Get (fieldData orders_key) "type" = Some (VString "aes256-gcm96")
  ∧ trace (run lockmanager.env
             (pathPolicyWrite request0 (fieldData orders_key))
             lockmanager.empty)
    = [Ev (GetPolicyUpsert
             {| Storage := StorageView 0; Name := "orders-key";
                KeyType_ := KeyType_AES256_GCM96; Derived := true;
                Convergent := true; Exportable := false |})
          (Some (lockmanager.new_policy
                   {| Storage := StorageView 0; Name := "orders-key";
                      KeyType_ := KeyType_AES256_GCM96; Derived := true;
                      Convergent := true; Exportable := false |} 0),
           Some (MutexOf "orders-key"), true, None);
       Ev (RUnlock (MutexOf "orders-key")) tt].
Proof.
  destruct (type_defaults_to_aes256_gcm96 request0 orders_key)
    as (Hdefault & _ & Hupsert).
  - vm_compute; reflexivity.
  - split; [ exact Hdefault | ].
    rewrite (Hupsert lockmanager.World lockmanager.env lockmanager.empty
               {| f_name := "orders-key"; f_derived := true;
                  f_convergent := true; f_type := "aes256-gcm96";
                  f_exportable := false |}).
    + reflexivity.
    + repeat split; vm_compute; reflexivity.
    + reflexivity.
Defined.

(** Reading the name, then the lookup, of [pathPolicyRead]. *)
Ltac read_lookup Hname Hlookup :=
  unfold pathPolicyRead, get_string; rewrite Hname;
  cbn [mbind Prog_bind bind call run]; rewrite Hlookup;
  cbn [mbind Prog_bind bind call run with_deferred].

(** C5: a read of a name for which the lookup neither fails nor finds a
    Policy returns no response and no error; this is no outcome that
    carries an error. *)
Theorem read_unknown_name_is_absent
    {W : Type} (env : Env W) (w w' : W) (decode : string → option bytes)
    (req : Request) (d : FieldData) (name : string) (lock : option RWMutex) :
  Get d "name" = Some (VString name) →
  env (GetPolicyShared (Storage_ req) name) w = ((None, lock, None), w') →
  let r := run env (pathPolicyRead decode req d) w in
  outcome r = Returned (None, None)
  ∧ ∀ resp e, outcome r ≠ Returned (resp, Some e).
Proof.
  intros Hname Hlookup r.
  assert (outcome r = Returned (None, None)) as E.
  { subst r. read_lookup Hname Hlookup.
    destruct lock as [l | ]; simpl; [ | reflexivity ].
    destruct (env (RUnlock l) w'); reflexivity. }
  split; [ exact E | ]. intros resp e. rewrite E. discriminate.
Qed.

Lemma read_unknown_name_is_absent_witness :
  let d := fieldData orders_key in
  let r := run lockmanager.env (pathPolicyRead base64.DecodeString request0 d)
             lockmanager.empty in
  outcome r = Returned (None, None)
  ∧ ∀ resp e, outcome r ≠ Returned (resp, Some e).
Proof.
  intros d r.
  apply (read_unknown_name_is_absent lockmanager.env lockmanager.empty
           lockmanager.empty base64.DecodeString request0 d "orders-key" None).
  - vm_compute; reflexivity.
  - reflexivity.
Defined.

(** The world in which the policy "orders-key" has been created. *)
Lemma world_with_orders_key :
  ∃ p, lockmanager.stored
         (final (run lockmanager.env
                   (pathPolicyWrite request0 (fieldData orders_key))
                   lockmanager.empty)) !! "orders-key" = Some p.
Proof. eexists. vm_compute. reflexivity. Qed.

(** C6, as stated, fails: a read of the unknown name "orders-key" with the
    context "!!!", which is not base64, returns the absent result, not an
    invalid-request error. *)
Lemma malformed_context_on_unknown_name :
  let d := fieldData (<["context" := VString "!!!"]> orders_key) in
  let r := run lockmanager.env (pathPolicyRead base64.DecodeString request0 d)
             lockmanager.empty in
  Get d "context" = Some (VString "!!!")
  ∧ base64.DecodeString "!!!" = None
  ∧ outcome r = Returned (None, None).
Proof. repeat split; vm_compute; reflexivity. Qed.

(** C6, amended: when the lookup of the name succeeds and finds a Policy, a
    read whose non-empty context string does not decode as standard base64
    is answered by the error response "failed to base64-decode context"
    together with [ErrInvalidRequest]; the lookup is the only call that
    reaches the policy store ([p.Map] is not called, so nothing is derived
    and the Policy is not touched), and the world is the one the lookup
    left, after the release of its lock. *)
Theorem malformed_context_rejected
    {W : Type} (env : Env W) (w w' : W) (decode : string → option bytes)
    (req : Request) (d : FieldData) (name contextRaw : string) (p : Policy)
    (lock : option RWMutex) :
  Get d "name" = Some (VString name) →
  Get d "context" = Some (VString contextRaw) →
  contextRaw ≠ "" →
  decode contextRaw = None →
  env (GetPolicyShared (Storage_ req) name) w = ((Some p, lock, None), w') →
  let r := run env (pathPolicyRead decode req d) w in
  outcome r =
    Returned (Some (ErrorResponse "failed to base64-decode context"),
              Some ErrInvalidRequest)
  ∧ filter is_store_call (trace r) =
      [Ev (GetPolicyShared (Storage_ req) name) (Some p, lock, None)]
  ∧ final r =
      match lock with
      | Some l => (env (RUnlock l) w').2
      | None => w'
      end.
Proof.
  intros Hname Hcontext Hne Hdecode Hlookup r. subst r.
  read_lookup Hname Hlookup. rewrite Hcontext.
  destruct contextRaw as [ | c s ]; [ done | ].
  cbn [mbind Prog_bind bind String.length Nat.eqb]. rewrite Hdecode.
  destruct lock as [l | ]; simpl.
  - destruct (env (RUnlock l) w') as [[] w'']. simpl. done.
  - done.
Qed.

Lemma malformed_context_rejected_witness :
  let w := final (run lockmanager.env
                    (pathPolicyWrite request0 (fieldData orders_key))
                    lockmanager.empty) in
  let d := fieldData (<["context" := VString "!!!"]> orders_key) in
  let r := run lockmanager.env (pathPolicyRead base64.DecodeString request0 d)
             w in
  outcome r =
    Returned (Some (ErrorResponse "failed to base64-decode context"),
              Some ErrInvalidRequest)
  ∧ List.length (filter is_store_call (trace r)) = 1
  ∧ lockmanager.stored (final r) = lockmanager.stored w.
Proof.
  intros w d r.
  destruct (malformed_context_rejected lockmanager.env w
              (lockmanager.rlock "orders-key" w)
              base64.DecodeString request0 d "orders-key" "!!!"
              (lockmanager.new_policy
                 {| Storage := StorageView 0; Name := "orders-key";
                    KeyType_ := KeyType_AES256_GCM96; Derived := true;
                    Convergent := true; Exportable := false |} 0)
              (Some (MutexOf "orders-key")))
    as (Ho & Ht & Hf).
  - vm_compute; reflexivity.
  - vm_compute; reflexivity.
  - discriminate.
  - vm_compute; reflexivity.
  - vm_compute; reflexivity.
  - fold r in Ho, Ht, Hf. split; [ exact Ho | ]. split.
    + rewrite Ht. reflexivity.
    + rewrite Hf. reflexivity.
Defined.

(** C7: list-names makes one call, the storage collaborator's listing of
    the prefix "policy/", and none to the lock manager; a failure of the
    listing is returned as the error, and otherwise the response carries
    exactly the names listed.  Two worlds in which the storage lists the
    same names give the same result. *)
Theorem list_names_from_storage
    {W : Type} (env : Env W) (w : W) (req : Request) (d : FieldData) :
  let listing := Storage_List (Storage_ req) "policy/" in
  let r := run env (pathKeysList req d) w in
  trace r = [Ev listing (env listing w).1]
  ∧ final r = (env listing w).2
  ∧ match (env listing w).1 with
    | (entries, Some e) => outcome r = Returned (None, Some e)
    | (entries, None) =>
        outcome r = Returned (Some (ListResponse entries), None)
        ∧ response_keys (ListResponse entries) = entries
    end
  ∧ ∀ w2 : W,
      (env listing w2).1 = (env listing w).1 →
      outcome (run env (pathKeysList req d) w2) = outcome r.
Proof.
  intros listing r. subst r. unfold pathKeysList.
  cbn [mbind Prog_bind bind call run]. fold listing.
  assert (∀ v : W,
            outcome
              (let '(x, v') := env listing v in
               let r := run env (let '(entries, err) := x in
                                 match err with
                                 | Some e => Ret (None, Some e)
                                 | None =>
                                     Ret (Some (ListResponse entries), None)
                                 end) v' in
               {| outcome := outcome r; trace := Ev listing x :: trace r;
                  final := final r |})
            = match (env listing v).1 with
              | (entries, Some e) => Returned (None, Some e)
              | (entries, None) => Returned (Some (ListResponse entries), None)
              end) as Hout.
  { intros v. destruct (env listing v) as [[entries [e | ]] v']; reflexivity. }
  split; [ | split; [ | split ] ].
  - destruct (env listing w) as [[entries [e | ]] v']; reflexivity.
  - destruct (env listing w) as [[entries [e | ]] v']; reflexivity.
  - rewrite Hout.
    destruct (env listing w) as [[entries [e | ]] v']; simpl; [ done | ].
    split; [ done | ].
    unfold response_keys, ListResponse; simpl.
    destruct entries; [ done | ]. by rewrite lookup_singleton_eq.
  - intros w2 Heq. rewrite !Hout, Heq. reflexivity.
Qed.

Lemma list_names_from_storage_witness :
  let w := final (run lockmanager.env
                    (pathPolicyWrite request0 (fieldData orders_key))
                    lockmanager.empty) in
  let cold_cache :=
    {| lockmanager.stored := lockmanager.stored w;
       lockmanager.cache := delete "orders-key" (lockmanager.cache w);
       lockmanager.readers := lockmanager.readers w;
       lockmanager.storage_failure := None;
       lockmanager.clock := lockmanager.clock w |} in
  let r := run lockmanager.env (pathKeysList request0 (fieldData ∅))
             cold_cache in
  outcome r = Returned (Some (ListResponse ["orders-key"]), None)
  ∧ List.length (trace r) = 1.
Proof.
  intros w cold_cache r.
  destruct (list_names_from_storage lockmanager.env cold_cache request0
              (fieldData ∅)) as (Ht & _ & Ho & Hs).
  split.
  - apply (Hs cold_cache). reflexivity.
  - fold r in Ht. rewrite Ht. reflexivity.
Defined.

(** Reading a field makes no call: it yields a value or panics. *)
Lemma get_string_pure (d : FieldData) (k : string) :
  (∃ s, get_string d k = Ret s) ∨ (∃ msg, get_string d k = Panic msg).
Proof.
  unfold get_string. destruct (Get d k) as [[ | | | ] | ]; eauto.
Qed.

Lemma get_bool_pure (d : FieldData) (k : string) :
  (∃ b, get_bool d k = Ret b) ∨ (∃ msg, get_bool d k = Panic msg).
Proof.
  unfold get_bool. destruct (Get d k) as [[ | | | ] | ]; eauto.
Qed.

(** A trace that hands out no lock and releases none. *)
Ltac no_lock := split_and!; [ reflexivity | reflexivity | simpl; lia ].

Ltac read_string d k :=
  destruct (get_string_pure d k) as [[? ->] | [? ->]];
  cbn [mbind Prog_bind bind run trace]; [ | no_lock ].

Ltac read_bool d k :=
  destruct (get_bool_pure d k) as [[? ->] | [? ->]];
  cbn [mbind Prog_bind bind run trace]; [ | no_lock ].

(** A trace that is the hand-out of a lock, possibly, and then its
    release. *)
Ltac lock_then_unlock :=
  cbn [run trace held_after released_by acquired_by ev_call ev_ans omap
       list_omap release mbind option_bind];
  try rewrite decide_True by reflexivity;
  no_lock.

(** The locks a trace hands out and the locks it releases, in order. *)
Lemma write_lock_discipline
    {W : Type} (env : Env W) (w : W) (req : Request) (d : FieldData) :
  let t := trace (run env (pathPolicyWrite req d) w) in
  held_after [] t = Some []
  ∧ omap released_by t = omap acquired_by t
  ∧ (List.length (omap acquired_by t) ≤ 1)%nat.
Proof.
  unfold pathPolicyWrite.
  read_string d "name". read_bool d "derived".
  read_bool d "convergent_encryption". read_string d "type".
  read_bool d "exportable".
  destruct (negb _ && _); [ cbn [run trace]; no_lock | ].
  destruct (keyType_of _); [ | cbn [run trace]; no_lock ].
  cbn [mbind Prog_bind bind call run trace].
  destruct (env _ w) as [[[[p lock] upserted] err] w'].
  destruct lock as [l | ], err as [e | ], p as [p | ];
    cbn [with_deferred unlock_if_held call bind run trace];
    try destruct (env (RUnlock l) w') as [[] w''];
    lock_then_unlock.
Qed.

Lemma read_lock_discipline
    {W : Type} (env : Env W) (w : W) (decode : string → option bytes)
    (req : Request) (d : FieldData) :
  let t := trace (run env (pathPolicyRead decode req d) w) in
  held_after [] t = Some []
  ∧ omap released_by t = omap acquired_by t
  ∧ (List.length (omap acquired_by t) ≤ 1)%nat.
Proof.
  unfold pathPolicyRead.
  read_string d "name".
  cbn [mbind Prog_bind bind call run trace].
  destruct (env _ w) as [[[p lock] err] w'].
  destruct err as [e | ], p as [p | ];
    try (destruct lock as [l | ];
         cbn [with_deferred unlock_if_held call bind run trace];
         try destruct (env (RUnlock l) w') as [[] w''];
         lock_then_unlock).
  destruct (get_string_pure d "context") as [[contextRaw ->] | [msg ->]];
    cbn [mbind Prog_bind bind].
  - destruct (if Nat.eqb _ 0 then _ else _) as [context | ];
      cbn [with_deferred run trace].
    + destruct (env (Policy_Map p context) w') as [[respData [e | ]] w''];
        destruct lock as [l | ];
        cbn [with_deferred unlock_if_held call bind run trace];
        try destruct (env (RUnlock l) w'') as [[] w3];
        lock_then_unlock.
    + destruct lock as [l | ];
        cbn [with_deferred unlock_if_held call bind run trace];
        try destruct (env (RUnlock l) w') as [[] w''];
        lock_then_unlock.
  - destruct lock as [l | ];
      cbn [with_deferred unlock_if_held call bind run trace];
      try destruct (env (RUnlock l) w') as [[] w''];
      lock_then_unlock.
Qed.

(** C8: under every environment, and on every path through the
    create-or-get and the read handlers (early returns and panics
    included), the trace releases exactly the locks the lock manager handed
    out, each once and after it was handed out, and nothing is held at the
    end; at most one lock is handed out, and when none is, none is
    released. *)
Theorem shared_lock_released_once
    {W : Type} (env : Env W) (w : W) (decode : string → option bytes)
    (req : Request) (d : FieldData) :
  let tw := trace (run env (pathPolicyWrite req d) w) in
  let tr := trace (run env (pathPolicyRead decode req d) w) in
  (held_after [] tw = Some []
   ∧ omap released_by tw = omap acquired_by tw
   ∧ (List.length (omap acquired_by tw) ≤ 1)%nat)
  ∧ (held_after [] tr = Some []
     ∧ omap released_by tr = omap acquired_by tr
     ∧ (List.length (omap acquired_by tr) ≤ 1)%nat).
Proof.
  split; [ apply write_lock_discipline | apply read_lock_discipline ].
Qed.

(** The end of [pathPolicyWrite]: once the upsert has succeeded the handler
    returns no response, whatever the [upserted] flag says. *)
Lemma pathPolicyWrite_upsert_ok
    {W : Type} (env : Env W) (w w' : W) (req : Request) (d : FieldData)
    (f : WriteFields) (t : KeyType) (p : Policy) (lock : option RWMutex)
    (upserted : bool) :
  carries d f →
  negb (f_derived f) && f_convergent f = false →
  keyType_of (f_type f) = Some t →
  env (GetPolicyUpsert
         {| Storage := Storage_ req; Name := f_name f; KeyType_ := t;
            Derived := f_derived f; Convergent := f_convergent f;
            Exportable := f_exportable f |}) w
    = ((Some p, lock, upserted, None), w') →
  outcome (run env (pathPolicyWrite req d) w) = Returned (None, None).
Proof.
  intros Hd Hc Ht Hupsert. read_fields Hd. rewrite Hc, Ht.
  cbn [mbind Prog_bind bind call run]. unfold with_KeyType.
  cbn [Storage Name Derived Convergent Exportable].
  rewrite Hupsert.
  destruct lock as [l | ];
    cbn [with_deferred unlock_if_held call bind run outcome];
    [ destruct (env (RUnlock l) w') as [[] w''] | ]; reflexivity.
Qed.

(** C1, on the code: the second create-or-get of "orders-key" succeeds, the
    lock manager reports [upserted = false], and the handler returns no
    response at all, so the caller sees no warning; the response to which
    "key orders-key already existed" was added is dropped. *)
Theorem existing_key_warning_dropped :
  let d := fieldData orders_key in
  let w := final (run lockmanager.env (pathPolicyWrite request0 d)
                    lockmanager.empty) in
  let r := run lockmanager.env (pathPolicyWrite request0 d) w in
  omap upserted_by (trace r) = [false]
  ∧ outcome r = Returned (None, None)
  ∧ visible_warnings (outcome r) = []
  ∧ Warnings (AddWarning emptyResponse ("key " ++ "orders-key" ++ " already existed"))
    = ["key orders-key already existed"].
Proof. repeat split; vm_compute; reflexivity. Qed.

(** * Further properties of the handlers *)

Lemma prefix_append (s t : string) : String.prefix s (s ++ t) = true.
Proof.
  induction s as [ | c s IH ]; simpl; [ by destruct t | ].
  destruct (ascii_dec c c); [ exact IH | congruence ].
Qed.

Lemma contains_prefix (sub s : string) :
  String.prefix sub s = true → contains sub s = true.
Proof. intros H. destruct s; cbn [contains]; rewrite H; reflexivity. Qed.

Lemma contains_prepend (pre sub s : string) :
  contains sub s = true → contains sub (pre ++ s) = true.
Proof.
  intros H. induction pre as [ | c pre IH ]; simpl; [ exact H | ].
  rewrite IH. apply orb_true_r.
Qed.

(** ** Delete *)

(** X1: when the lock manager deletes the policy without error, the delete
    handler returns no response and no error; its only call is
    [DeletePolicy], with the storage of the request and the name read from
    the field data, and the world is the one that call left. *)
Theorem delete_returns_nothing
    {W : Type} (env : Env W) (w w' : W) (req : Request) (d : FieldData)
    (name : string) :
  Get d "name" = Some (VString name) →
  env (DeletePolicy (Storage_ req) name) w = (None, w') →
  let r := run env (pathPolicyDelete req d) w in
  outcome r = Returned (None, None)
  ∧ trace r = [Ev (DeletePolicy (Storage_ req) name) None]
  ∧ final r = w'.
Proof.
  intros Hname Hdelete r. subst r.
  unfold pathPolicyDelete, get_string. rewrite Hname.
  cbn [mbind Prog_bind bind call run]. rewrite Hdelete.
  cbn [run outcome trace final]. done.
Qed.

Lemma delete_returns_nothing_witness :
  let w := final (run lockmanager.env
                    (pathPolicyWrite request0 (fieldData orders_key))
                    lockmanager.empty) in
  let r := run lockmanager.env (pathPolicyDelete request0 (fieldData orders_key))
             w in
  outcome r = Returned (None, None)
  ∧ lockmanager.stored (final r) !! "orders-key" = None.
Proof.
  intros w r.
  destruct (delete_returns_nothing lockmanager.env w
              (lockmanager.deletePolicy "orders-key" w).2 request0
              (fieldData orders_key) "orders-key")
    as (Ho & _ & Hf).
  - vm_compute; reflexivity.
  - reflexivity.
  - fold r in Ho, Hf. split; [ exact Ho | ]. rewrite Hf.
    vm_compute; reflexivity.
Defined.

(** X2: when the lock manager fails to delete the policy, the delete
    handler returns both an error response and the error itself; the
    message of the response is "error deleting policy <name>: <error>", so
    it carries the name and the text of the error; [DeletePolicy] is the
    only call made. *)
Theorem delete_failure_reported
    {W : Type} (env : Env W) (w w' : W) (req : Request) (d : FieldData)
    (name : string) (e : error) :
  Get d "name" = Some (VString name) →
  env (DeletePolicy (Storage_ req) name) w = (Some e, w') →
  let msg := "error deleting policy " ++ name ++ ": " ++ Error e in
  let r := run env (pathPolicyDelete req d) w in
  outcome r = Returned (Some (ErrorResponse msg), Some e)
  ∧ IsError (ErrorResponse msg) = true
  ∧ contains name msg = true
  ∧ contains (Error e) msg = true
  ∧ trace r = [Ev (DeletePolicy (Storage_ req) name) (Some e)]
  ∧ final r = w'.
Proof.
  intros Hname Hdelete msg r. subst r msg.
  unfold pathPolicyDelete, get_string. rewrite Hname.
  cbn [mbind Prog_bind bind call run]. rewrite Hdelete.
  cbn [run outcome trace final].
  split; [ reflexivity | ].
  split; [ apply IsError_ErrorResponse | ].
  split; [ apply contains_prepend, contains_prefix, prefix_append | ].
  split; [ | done ].
  apply contains_prepend, contains_prepend, contains_prepend.
  apply contains_prefix, prefix_refl.
Qed.

Lemma delete_failure_reported_witness :
  let down :=
    {| lockmanager.stored := ∅; lockmanager.cache := ∅;
       lockmanager.readers := ∅;
       lockmanager.storage_failure := Some (Errorf "storage unreachable");
       lockmanager.clock := 0 |} in
  let r := run lockmanager.env (pathPolicyDelete request0 (fieldData orders_key))
             down in
  outcome r =
    Returned
      (Some (ErrorResponse
               "error deleting policy orders-key: storage unreachable"),
       Some (Errorf "storage unreachable")).
Proof.
  intros down r.
  destruct (delete_failure_reported lockmanager.env down down request0
              (fieldData orders_key) "orders-key"
              (Errorf "storage unreachable"))
    as (Ho & _).
  - vm_compute; reflexivity.
  - reflexivity.
  - exact Ho.
Defined.

(** ** Create-or-get, past the validation *)

(** The handler up to its call of the lock manager, for a request that
    passes both rules. *)
Ltac to_upsert Hd Hc Ht :=
  read_fields Hd; rewrite Hc, Ht;
  cbn [mbind Prog_bind bind call run]; unfold with_KeyType;
  cbn [Storage Name Derived Convergent Exportable].

(** Reading a field in a goal about the outcome or the trace of a run; [fin]
    closes the case of a panic. *)
Ltac field_string d k fin :=
  destruct (get_string_pure d k) as [[? ->] | [? ->]];
  cbn [mbind Prog_bind bind run outcome trace final]; [ | fin ].

Ltac field_bool d k fin :=
  destruct (get_bool_pure d k) as [[? ->] | [? ->]];
  cbn [mbind Prog_bind bind run outcome trace final]; [ | fin ].

(** X3: a create-or-get request that passes both validation rules makes
    exactly one call to the policy store: [GetPolicyUpsert] with the
    storage of the request, the name, the derived, convergent and
    exportable flags as supplied and the key type its type string names;
    the only other call is the release of the lock that call handed out. *)
Theorem write_forwards_parameters
    {W : Type} (env : Env W) (w : W) (req : Request) (d : FieldData)
    (f : WriteFields) (t : KeyType) :
  carries d f →
  negb (f_derived f) && f_convergent f = false →
  keyType_of (f_type f) = Some t →
  let upsert :=
    GetPolicyUpsert
      {| Storage := Storage_ req; Name := f_name f; KeyType_ := t;
         Derived := f_derived f; Convergent := f_convergent f;
         Exportable := f_exportable f |} in
  trace (run env (pathPolicyWrite req d) w)
  = Ev upsert (env upsert w).1
      :: match (env upsert w).1 with
         | (_, Some l, _, _) => [Ev (RUnlock l) tt]
         | _ => []
         end.
Proof.
  intros Hd Hc Ht upsert. to_upsert Hd Hc Ht. fold upsert.
  destruct (env upsert w) as [[[[p lock] upserted] err] w'].
  destruct lock as [l | ], err as [e | ], p as [p | ];
    cbn [with_deferred unlock_if_held call bind run trace fst];
    try destruct (env (RUnlock l) w') as [[] w''];
    reflexivity.
Qed.

Lemma write_forwards_parameters_witness :
  trace (run lockmanager.env
           (pathPolicyWrite request0
              (fieldData (<["type" := VString "ed25519"]> orders_key)))
           lockmanager.empty)
  = [Ev (GetPolicyUpsert
           {| Storage := StorageView 0; Name := "orders-key";
              KeyType_ := KeyType_ED25519; Derived := true;
              Convergent := true; Exportable := false |})
        (Some (lockmanager.new_policy
                 {| Storage := StorageView 0; Name := "orders-key";
                    KeyType_ := KeyType_ED25519; Derived := true;
                    Convergent := true; Exportable := false |} 0),
         Some (MutexOf "orders-key"), true, None);
     Ev (RUnlock (MutexOf "orders-key")) tt].
Proof.
  rewrite (write_forwards_parameters lockmanager.env lockmanager.empty
             request0 (fieldData (<["type" := VString "ed25519"]> orders_key))
             {| f_name := "orders-key"; f_derived := true;
                f_convergent := true; f_type := "ed25519";
                f_exportable := false |} KeyType_ED25519).
  - reflexivity.
  - repeat split; vm_compute; reflexivity.
  - reflexivity.
  - reflexivity.
Defined.

(** X4: when [GetPolicyUpsert] returns an error, the create-or-get handler
    returns that error, unchanged and without a response, whatever else
    the call returned. *)
Theorem write_upsert_error_returned
    {W : Type} (env : Env W) (w w' : W) (req : Request) (d : FieldData)
    (f : WriteFields) (t : KeyType) (p : option Policy)
    (lock : option RWMutex) (upserted : bool) (e : error) :
  carries d f →
  negb (f_derived f) && f_convergent f = false →
  keyType_of (f_type f) = Some t →
  env (GetPolicyUpsert
         {| Storage := Storage_ req; Name := f_name f; KeyType_ := t;
            Derived := f_derived f; Convergent := f_convergent f;
            Exportable := f_exportable f |}) w
    = ((p, lock, upserted, Some e), w') →
  outcome (run env (pathPolicyWrite req d) w) = Returned (None, Some e).
Proof.
  intros Hd Hc Ht Hupsert. to_upsert Hd Hc Ht. rewrite Hupsert.
  destruct lock as [l | ];
    cbn [with_deferred unlock_if_held call bind run outcome];
    [ destruct (env (RUnlock l) w') as [[] w''] | ]; reflexivity.
Qed.

Lemma write_upsert_error_returned_witness :
  let down :=
    {| lockmanager.stored := ∅; lockmanager.cache := ∅;
       lockmanager.readers := ∅;
       lockmanager.storage_failure := Some (Errorf "storage unreachable");
       lockmanager.clock := 0 |} in
  outcome (run lockmanager.env (pathPolicyWrite request0 (fieldData orders_key))
             down)
  = Returned (None, Some (Errorf "storage unreachable")).
Proof.
  intros down.
  apply (write_upsert_error_returned lockmanager.env down down request0
           (fieldData orders_key)
           {| f_name := "orders-key"; f_derived := true;
              f_convergent := true; f_type := "aes256-gcm96";
              f_exportable := false |}
           KeyType_AES256_GCM96 None None false).
  - repeat split; vm_compute; reflexivity.
  - reflexivity.
  - reflexivity.
  - reflexivity.
Defined.

(** X5: when [GetPolicyUpsert] returns neither an error nor a policy, the
    create-or-get handler fails with the error "error generating key:
    returned policy was nil" and no response. *)
Theorem write_nil_policy_is_error
    {W : Type} (env : Env W) (w w' : W) (req : Request) (d : FieldData)
    (f : WriteFields) (t : KeyType) (lock : option RWMutex)
    (upserted : bool) :
  carries d f →
  negb (f_derived f) && f_convergent f = false →
  keyType_of (f_type f) = Some t →
  env (GetPolicyUpsert
         {| Storage := Storage_ req; Name := f_name f; KeyType_ := t;
            Derived := f_derived f; Convergent := f_convergent f;
            Exportable := f_exportable f |}) w
    = ((None, lock, upserted, None), w') →
  outcome (run env (pathPolicyWrite req d) w)
  = Returned
      (None, Some (Errorf "error generating key: returned policy was nil")).
Proof.
  intros Hd Hc Ht Hupsert. to_upsert Hd Hc Ht. rewrite Hupsert.
  destruct lock as [l | ];
    cbn [with_deferred unlock_if_held call bind run outcome];
    [ destruct (env (RUnlock l) w') as [[] w''] | ]; reflexivity.
Qed.

Lemma write_nil_policy_is_error_witness :
  outcome (run nil_env (pathPolicyWrite request0 (fieldData orders_key)) tt)
  = Returned
      (None, Some (Errorf "error generating key: returned policy was nil")).
Proof.
  apply (write_nil_policy_is_error nil_env tt tt request0
           (fieldData orders_key)
           {| f_name := "orders-key"; f_derived := true;
              f_convergent := true; f_type := "aes256-gcm96";
              f_exportable := false |}
           KeyType_AES256_GCM96 None false).
  - repeat split; vm_compute; reflexivity.
  - reflexivity.
  - reflexivity.
  - reflexivity.
Defined.

(** X6: the create-or-get handler returns a response only to turn a request
    down: whenever it returns one, under any environment and for any field
    data, the response is an error response with one of the two validation
    messages, and no call has been made.  Once the lock manager has been
    called, the response is nil. *)
Theorem write_response_is_rejection
    {W : Type} (env : Env W) (w : W) (req : Request) (d : FieldData)
    (resp : Response) (e : option error) :
  let r := run env (pathPolicyWrite req d) w in
  outcome r = Returned (Some resp, e) →
  trace r = []
  ∧ IsError resp = true
  ∧ (error_text resp
       = Some "convergent encryption requires derivation to be enabled"
     ∨ ∃ keyType,
         keyType_of keyType = None
         ∧ error_text resp = Some ("unknown key type " ++ keyType)).
Proof.
  cbv zeta. unfold pathPolicyWrite.
  field_string d "name" discriminate.
  field_bool d "derived" discriminate.
  field_bool d "convergent_encryption" discriminate.
  field_string d "type" discriminate.
  field_bool d "exportable" discriminate.
  destruct (negb _ && _).
  { cbn [run outcome trace]. intros [= <- <-].
    split; [ reflexivity | ]. split; [ apply IsError_ErrorResponse | ].
    left. apply error_text_ErrorResponse. }
  destruct (keyType_of _) as [t | ] eqn:Ht.
  2:{ cbn [run outcome trace]. intros [= <- <-].
      split; [ reflexivity | ]. split; [ apply IsError_ErrorResponse | ].
      right. eexists. split; [ exact Ht | apply error_text_ErrorResponse ]. }
  cbn [mbind Prog_bind bind call run outcome trace].
  destruct (env _ w) as [[[[p lock] upserted] err] w'].
  destruct lock as [l | ], err as [e' | ], p as [p | ];
    cbn [with_deferred unlock_if_held call bind run outcome trace];
    try destruct (env (RUnlock l) w') as [[] w''];
    cbn [run outcome]; discriminate.
Qed.

Lemma write_response_is_rejection_witness :
  let d := fieldData (<["type" := VString "foo"]> orders_key) in
  let r := run nil_env (pathPolicyWrite request0 d) tt in
  trace r = []
  ∧ IsError (ErrorResponse "unknown key type foo") = true.
Proof.
  intros d r.
  destruct (write_response_is_rejection nil_env tt request0 d
              (ErrorResponse "unknown key type foo")
              (Some ErrInvalidRequest))
    as (Ht & Hi & _).
  - reflexivity.
  - split; assumption.
Defined.

(** ** Read, past the lookup *)

(** A read of an existing policy whose context is empty, or decodes to
    [context]: the policy is mapped under that context, and the result of
    the read is read off what [Map] returned. *)
Lemma read_maps_policy
    {W : Type} (env : Env W) (w w' w'' : W) (decode : string → option bytes)
    (req : Request) (d : FieldData) (name contextRaw : string) (p : Policy)
    (lock : option RWMutex) (context : bytes) (respData : gmap string Value)
    (err : option error) :
  Get d "name" = Some (VString name) →
  Get d "context" = Some (VString contextRaw) →
  (contextRaw = "" ∧ context = [])
  ∨ (contextRaw ≠ "" ∧ decode contextRaw = Some context) →
  env (GetPolicyShared (Storage_ req) name) w = ((Some p, lock, None), w') →
  env (Policy_Map p context) w' = ((respData, err), w'') →
  let r := run env (pathPolicyRead decode req d) w in
  outcome r =
    Returned match err with
             | Some e => (None, Some e)
             | None => (Some {| Data := respData; Warnings := [] |}, None)
             end
  ∧ filter is_store_call (trace r) =
      [Ev (GetPolicyShared (Storage_ req) name) (Some p, lock, None);
       Ev (Policy_Map p context) (respData, err)]
  ∧ final r =
      match lock with
      | Some l => (env (RUnlock l) w'').2
      | None => w''
      end.
Proof.
  intros Hname Hcontext Hdecode Hlookup Hmap r. subst r.
  read_lookup Hname Hlookup. rewrite Hcontext.
  cbn [mbind Prog_bind bind].
  assert ((if Nat.eqb (String.length contextRaw) 0 then Some []
           else decode contextRaw) = Some context) as ->.
  { destruct Hdecode as [[-> ->] | [Hne Hd]]; [ reflexivity | ].
    destruct contextRaw; [ done | exact Hd ]. }
  cbn [mbind Prog_bind bind call with_deferred run]. rewrite Hmap.
  destruct err as [e | ], lock as [l | ];
    cbn [with_deferred unlock_if_held call bind run outcome trace final];
    try destruct (env (RUnlock l) w'') as [[] w3]; done.
Qed.

(** X7: a read of an existing policy returns, as the data of its response
    and with no warning, exactly the map the policy's [Map] returned for
    the context: the empty context when the context string is empty (the
    decoder is then not consulted), the decoded bytes otherwise.  The
    lookup and [Map] are the only calls that reach the policy store. *)
Theorem read_returns_policy_map
    {W : Type} (env : Env W) (w w' w'' : W) (decode : string → option bytes)
    (req : Request) (d : FieldData) (name contextRaw : string) (p : Policy)
    (lock : option RWMutex) (context : bytes)
    (respData : gmap string Value) :
  Get d "name" = Some (VString name) →
  Get d "context" = Some (VString contextRaw) →
  (contextRaw = "" ∧ context = [])
  ∨ (contextRaw ≠ "" ∧ decode contextRaw = Some context) →
  env (GetPolicyShared (Storage_ req) name) w = ((Some p, lock, None), w') →
  env (Policy_Map p context) w' = ((respData, None), w'') →
  let r := run env (pathPolicyRead decode req d) w in
  outcome r = Returned (Some {| Data := respData; Warnings := [] |}, None)
  ∧ filter is_store_call (trace r) =
      [Ev (GetPolicyShared (Storage_ req) name) (Some p, lock, None);
       Ev (Policy_Map p context) (respData, None)].
Proof.
  intros Hname Hcontext Hdecode Hlookup Hmap r.
  destruct (read_maps_policy env w w' w'' decode req d name contextRaw p lock
              context respData None Hname Hcontext Hdecode Hlookup Hmap)
    as (Ho & Ht & _).
  split; assumption.
Qed.

Lemma read_returns_policy_map_witness :
  let w := final (run lockmanager.env
                    (pathPolicyWrite request0 (fieldData orders_key))
                    lockmanager.empty) in
  let d := fieldData (<["context" := VString "b3JkZXItNDI="]> orders_key) in
  let p :=
    lockmanager.new_policy
      {| Storage := StorageView 0; Name := "orders-key";
         KeyType_ := KeyType_AES256_GCM96; Derived := true;
         Convergent := true; Exportable := false |} 0 in
  let r := run lockmanager.env (pathPolicyRead base64.DecodeString request0 d)
             w in
  outcome r =
    Returned
      (Some {| Data := lockmanager.policyMap p (list_ascii_of_string "order-42");
               Warnings := [] |},
       None).
Proof.
  intros w d p r.
  destruct (read_returns_policy_map lockmanager.env w
              (lockmanager.rlock "orders-key" w)
              (lockmanager.rlock "orders-key" w)
              base64.DecodeString request0 d "orders-key" "b3JkZXItNDI=" p
              (Some (MutexOf "orders-key"))
              (list_ascii_of_string "order-42")
              (lockmanager.policyMap p (list_ascii_of_string "order-42")))
    as (Ho & _).
  - vm_compute; reflexivity.
  - vm_compute; reflexivity.
  - right. split; [ discriminate | vm_compute; reflexivity ].
  - vm_compute; reflexivity.
  - reflexivity.
  - exact Ho.
Defined.

(** X8: when the policy's [Map] fails, the read returns that error and no
    response. *)
Theorem read_map_error_returned
    {W : Type} (env : Env W) (w w' w'' : W) (decode : string → option bytes)
    (req : Request) (d : FieldData) (name contextRaw : string) (p : Policy)
    (lock : option RWMutex) (context : bytes)
    (respData : gmap string Value) (e : error) :
  Get d "name" = Some (VString name) →
  Get d "context" = Some (VString contextRaw) →
  (contextRaw = "" ∧ context = [])
  ∨ (contextRaw ≠ "" ∧ decode contextRaw = Some context) →
  env (GetPolicyShared (Storage_ req) name) w = ((Some p, lock, None), w') →
  env (Policy_Map p context) w' = ((respData, Some e), w'') →
  outcome (run env (pathPolicyRead decode req d) w) = Returned (None, Some e).
Proof.
  intros Hname Hcontext Hdecode Hlookup Hmap.
  by destruct (read_maps_policy env w w' w'' decode req d name contextRaw p
                 lock context respData (Some e) Hname Hcontext Hdecode Hlookup
                 Hmap) as (Ho & _).
Qed.

(** X9: when the lookup fails, the read returns the error of the lookup and
    no response, whatever policy came with it; the lookup is the only call
    that reaches the policy store, and the context field is not even
    read. *)
Theorem read_lookup_error_returned
    {W : Type} (env : Env W) (w w' : W) (decode : string → option bytes)
    (req : Request) (d : FieldData) (name : string) (p : option Policy)
    (lock : option RWMutex) (e : error) :
  Get d "name" = Some (VString name) →
  env (GetPolicyShared (Storage_ req) name) w = ((p, lock, Some e), w') →
  let r := run env (pathPolicyRead decode req d) w in
  outcome r = Returned (None, Some e)
  ∧ filter is_store_call (trace r) =
      [Ev (GetPolicyShared (Storage_ req) name) (p, lock, Some e)].
Proof.
  intros Hname Hlookup r. subst r. read_lookup Hname Hlookup.
  destruct lock as [l | ];
    cbn [with_deferred unlock_if_held call bind run outcome trace];
    try destruct (env (RUnlock l) w') as [[] w'']; done.
Qed.

Lemma read_lookup_error_returned_witness :
  let down :=
    {| lockmanager.stored := ∅; lockmanager.cache := ∅;
       lockmanager.readers := ∅;
       lockmanager.storage_failure := Some (Errorf "storage unreachable");
       lockmanager.clock := 0 |} in
  outcome (run lockmanager.env
             (pathPolicyRead base64.DecodeString request0
                (fieldData orders_key)) down)
  = Returned (None, Some (Errorf "storage unreachable")).
Proof.
  intros down.
  destruct (read_lookup_error_returned lockmanager.env down down
              base64.DecodeString request0 (fieldData orders_key)
              "orders-key" None None (Errorf "storage unreachable"))
    as (Ho & _).
  - vm_compute; reflexivity.
  - reflexivity.
  - exact Ho.
Defined.

Lemma read_map_error_returned_witness :
  let p :=
    lockmanager.new_policy
      {| Storage := StorageView 0; Name := "orders-key";
         KeyType_ := KeyType_AES256_GCM96; Derived := true;
         Convergent := true; Exportable := false |} 0 in
  outcome (run (map_fails_env p (Errorf "missing context"))
             (pathPolicyRead base64.DecodeString request0
                (fieldData orders_key)) tt)
  = Returned (None, Some (Errorf "missing context")).
Proof.
  intros p.
  apply (read_map_error_returned (map_fails_env p (Errorf "missing context"))
           tt tt tt base64.DecodeString request0 (fieldData orders_key)
           "orders-key" "" p None [] ∅).
  - vm_compute; reflexivity.
  - vm_compute; reflexivity.
  - left. split; reflexivity.
  - reflexivity.
  - reflexivity.
Defined.

(** ** The calls of each handler *)

(** X10: in the create-or-get and the read handlers the release of the
    lock, when there is one, is the last call, under every environment and
    on every path: nothing is released among the calls before the last, so
    the policy is mapped while the lock is still held. *)
Theorem lock_released_last
    {W : Type} (env : Env W) (w : W) (decode : string → option bytes)
    (req : Request) (d : FieldData) :
  omap released_by
    (removelast (trace (run env (pathPolicyWrite req d) w))) = []
  ∧ omap released_by
      (removelast (trace (run env (pathPolicyRead decode req d) w))) = [].
Proof.
  split.
  - unfold pathPolicyWrite.
    field_string d "name" ltac:(idtac; reflexivity).
    field_bool d "derived" ltac:(idtac; reflexivity).
    field_bool d "convergent_encryption" ltac:(idtac; reflexivity).
    field_string d "type" ltac:(idtac; reflexivity).
    field_bool d "exportable" ltac:(idtac; reflexivity).
    destruct (negb _ && _); [ reflexivity | ].
    destruct (keyType_of _); [ | reflexivity ].
    cbn [mbind Prog_bind bind call run trace].
    destruct (env _ w) as [[[[p lock] upserted] err] w'].
    destruct lock as [l | ], err as [e | ], p as [p | ];
      cbn [with_deferred unlock_if_held call bind run trace];
      try destruct (env (RUnlock l) w') as [[] w''];
      reflexivity.
  - unfold pathPolicyRead.
    field_string d "name" ltac:(idtac; reflexivity).
    cbn [mbind Prog_bind bind call run trace].
    destruct (env _ w) as [[[p lock] err] w'].
    destruct err as [e | ], p as [p | ];
      try (destruct lock as [l | ];
           cbn [with_deferred unlock_if_held call bind run trace];
           try destruct (env (RUnlock l) w') as [[] w''];
           reflexivity).
    destruct (get_string_pure d "context") as [[contextRaw ->] | [msg ->]];
      cbn [mbind Prog_bind bind].
    + destruct (if Nat.eqb _ 0 then _ else _) as [context | ];
        cbn [with_deferred run trace].
      * destruct (env (Policy_Map p context) w') as [[respData [e | ]] w''];
          destruct lock as [l | ];
          cbn [with_deferred unlock_if_held call bind run trace];
          try destruct (env (RUnlock l) w'') as [[] w3];
          reflexivity.
      * destruct lock as [l | ];
          cbn [with_deferred unlock_if_held call bind run trace];
          try destruct (env (RUnlock l) w') as [[] w''];
          reflexivity.
    + destruct lock as [l | ];
        cbn [with_deferred unlock_if_held call bind run trace];
        try destruct (env (RUnlock l) w') as [[] w''];
        reflexivity.
Qed.

(** X11: the calls each handler makes, by kind and in order, under every
    environment and for every request: the list handler lists the storage
    once; create-or-get calls nothing, or [GetPolicyUpsert] and then at
    most [RUnlock]; read calls nothing, or [GetPolicyShared], then at most
    one [Map], then at most [RUnlock]; delete calls at most [DeletePolicy].
    So a read never creates or deletes, create-or-get never reads the
    policy, and delete takes and releases no lock of its own. *)
Theorem handlers_call_profile
    {W : Type} (env : Env W) (w : W) (decode : string → option bytes)
    (req : Request) (d : FieldData) :
  kinds (trace (run env (pathKeysList req d) w)) = [to_Storage_List]
  ∧ kinds (trace (run env (pathPolicyWrite req d) w))
    ∈ [ []; [to_GetPolicyUpsert]; [to_GetPolicyUpsert; to_RUnlock] ]
  ∧ kinds (trace (run env (pathPolicyRead decode req d) w))
    ∈ [ []; [to_GetPolicyShared]; [to_GetPolicyShared; to_RUnlock];
        [to_GetPolicyShared; to_Policy_Map];
        [to_GetPolicyShared; to_Policy_Map; to_RUnlock] ]
  ∧ kinds (trace (run env (pathPolicyDelete req d) w))
    ∈ [ []; [to_DeletePolicy] ].
Proof.
  split; [ | split; [ | split ] ].
  - unfold pathKeysList. cbn [mbind Prog_bind bind call run trace].
    destruct (env _ w) as [[entries [e | ]] w']; reflexivity.
  - unfold pathPolicyWrite.
    field_string d "name" ltac:(idtac; set_solver).
    field_bool d "derived" ltac:(idtac; set_solver).
    field_bool d "convergent_encryption" ltac:(idtac; set_solver).
    field_string d "type" ltac:(idtac; set_solver).
    field_bool d "exportable" ltac:(idtac; set_solver).
    destruct (negb _ && _); [ set_solver | ].
    destruct (keyType_of _); [ | set_solver ].
    cbn [mbind Prog_bind bind call run trace].
    destruct (env _ w) as [[[[p lock] upserted] err] w'].
    destruct lock as [l | ], err as [e | ], p as [p | ];
      cbn [with_deferred unlock_if_held call bind run trace];
      try destruct (env (RUnlock l) w') as [[] w''];
      cbn [run trace kinds fmap list_fmap kind_of ev_call]; set_solver.
  - unfold pathPolicyRead.
    field_string d "name" ltac:(idtac; set_solver).
    cbn [mbind Prog_bind bind call run trace].
    destruct (env _ w) as [[[p lock] err] w'].
    destruct err as [e | ], p as [p | ];
      try (destruct lock as [l | ];
           cbn [with_deferred unlock_if_held call bind run trace];
           try destruct (env (RUnlock l) w') as [[] w''];
           cbn [run trace kinds fmap list_fmap kind_of ev_call]; set_solver).
    destruct (get_string_pure d "context") as [[contextRaw ->] | [msg ->]];
      cbn [mbind Prog_bind bind].
    + destruct (if Nat.eqb _ 0 then _ else _) as [context | ];
        cbn [with_deferred run trace].
      * destruct (env (Policy_Map p context) w') as [[respData [e | ]] w''];
          destruct lock as [l | ];
          cbn [with_deferred unlock_if_held call bind run trace];
          try destruct (env (RUnlock l) w'') as [[] w3];
          cbn [run trace kinds fmap list_fmap kind_of ev_call]; set_solver.
      * destruct lock as [l | ];
          cbn [with_deferred unlock_if_held call bind run trace];
          try destruct (env (RUnlock l) w') as [[] w''];
          cbn [run trace kinds fmap list_fmap kind_of ev_call]; set_solver.
    + destruct lock as [l | ];
        cbn [with_deferred unlock_if_held call bind run trace];
        try destruct (env (RUnlock l) w') as [[] w''];
        cbn [run trace kinds fmap list_fmap kind_of ev_call]; set_solver.
  - unfold pathPolicyDelete.
    field_string d "name" ltac:(idtac; set_solver).
    cbn [mbind Prog_bind bind call run trace].
    destruct (env _ w) as [[e | ] w'];
      cbn [run trace kinds fmap list_fmap kind_of ev_call]; set_solver.
Qed.

(** ** The key types *)

(** X12: the switch on the type string is one to one: two type strings
    that name the same key type are the same string, and every key type of
    the enumeration is named by one of the five supported strings. *)
Theorem keyType_names_one_to_one (a b : string) (t : KeyType) :
  (keyType_of a = Some t → keyType_of b = Some t → a = b)
  ∧ ∃ s, s ∈ supported_types ∧ keyType_of s = Some t.
Proof.
  split.
  - unfold keyType_of.
    repeat match goal with
           | |- context [String.eqb ?x ?s] =>
               destruct (String.eqb_spec x s) as [-> | ?]
           end;
      intros Ha Hb; try discriminate; try reflexivity; congruence.
  - unfold supported_types.
    destruct t;
      [ exists "aes256-gcm96" | exists "ecdsa-p256" | exists "ed25519"
      | exists "rsa-2048" | exists "rsa-4096" ];
      (split; [ set_solver | reflexivity ]).
Qed.

Lemma keyType_names_one_to_one_witness :
  ∃ s, s ∈ supported_types ∧ keyType_of s = Some KeyType_RSA4096.
Proof.
  destruct (keyType_names_one_to_one "rsa-4096" "rsa-4096" KeyType_RSA4096)
    as [Hinj Hsur].
  pose proof (Hinj eq_refl eq_refl) as _.
  exact Hsur.
Defined.

(** ** Validated field data *)

Lemma validated_field (raw : gmap string Value) (k : string) (v : Value)
    (schema : FieldSchema) :
  validated (fieldData raw) = true →
  raw !! k = Some v →
  pathKeys_Fields !! k = Some schema →
  has_type (Type_ schema) v = true.
Proof.
  intros Hv Hk Hs. apply bool_decide_eq_true in Hv.
  pose proof (map_Forall_lookup_1 _ _ _ _ Hv Hk) as Hok.
  unfold field_ok, fieldData in Hok; simpl in Hok. by rewrite Hs in Hok.
Qed.

(** A string field of the schema of [pathKeys] reads as a string. *)
Lemma validated_get_string (raw : gmap string Value) (k : string)
    (schema : FieldSchema) :
  validated (fieldData raw) = true →
  pathKeys_Fields !! k = Some schema →
  Type_ schema = TypeString →
  (∃ s, DefaultOrZero schema = VString s) →
  ∃ s, get_string (fieldData raw) k = Ret s.
Proof.
  intros Hv Hs Ht [s0 Hd]. unfold get_string, Get; simpl. rewrite Hs.
  destruct (raw !! k) as [v | ] eqn:Hk.
  - pose proof (validated_field raw k v schema Hv Hk Hs) as Hty.
    rewrite Hty. rewrite Ht in Hty.
    destruct v; try discriminate. eauto.
  - rewrite Hd. eauto.
Qed.

(** A boolean field of the schema of [pathKeys] reads as a boolean. *)
Lemma validated_get_bool (raw : gmap string Value) (k : string)
    (schema : FieldSchema) :
  validated (fieldData raw) = true →
  pathKeys_Fields !! k = Some schema →
  Type_ schema = TypeBool →
  (∃ b, DefaultOrZero schema = VBool b) →
  ∃ b, get_bool (fieldData raw) k = Ret b.
Proof.
  intros Hv Hs Ht [b0 Hd]. unfold get_bool, Get; simpl. rewrite Hs.
  destruct (raw !! k) as [v | ] eqn:Hk.
  - pose proof (validated_field raw k v schema Hv Hk Hs) as Hty.
    rewrite Hty. rewrite Ht in Hty.
    destruct v; try discriminate. eauto.
  - rewrite Hd. eauto.
Qed.

(** Reading a field of validated data. *)
Ltac valid_string Hv raw k :=
  let entry := eval vm_compute in (pathKeys_Fields !! k) in
  match entry with
  | Some ?schema =>
      let H := fresh in
      destruct (validated_get_string raw k schema Hv) as [? H];
      [ vm_compute; reflexivity | reflexivity | eexists; reflexivity | ];
      rewrite H; clear H; cbn [mbind Prog_bind bind run outcome]
  end.

Ltac valid_bool Hv raw k :=
  let entry := eval vm_compute in (pathKeys_Fields !! k) in
  match entry with
  | Some ?schema =>
      let H := fresh in
      destruct (validated_get_bool raw k schema Hv) as [? H];
      [ vm_compute; reflexivity | reflexivity | eexists; reflexivity | ];
      rewrite H; clear H; cbn [mbind Prog_bind bind run outcome]
  end.

(** X13: every field a handler reads is declared in the schema of
    [pathKeys] with the type the handler asserts: on field data under that
    schema whose supplied values have the declared types, no handler
    panics, under any environment; each one returns. *)
Theorem validated_requests_do_not_panic
    {W : Type} (env : Env W) (w : W) (decode : string → option bytes)
    (req : Request) (raw : gmap string Value) :
  validated (fieldData raw) = true →
  ∀ handler,
    handler ∈ [pathKeysList; pathPolicyWrite; pathPolicyRead decode;
               pathPolicyDelete] →
    ∃ result, outcome (run env (handler req (fieldData raw)) w)
              = Returned result.
Proof.
  intros Hv handler Hin.
  repeat (apply elem_of_cons in Hin as [-> | Hin]);
    [ | | | | by apply elem_of_nil in Hin ].
  - unfold pathKeysList. cbn [mbind Prog_bind bind call run outcome].
    destruct (env _ w) as [[entries [e | ]] w']; cbn [run outcome]; eauto.
  - unfold pathPolicyWrite.
    valid_string Hv raw "name". valid_bool Hv raw "derived".
    valid_bool Hv raw "convergent_encryption". valid_string Hv raw "type".
    valid_bool Hv raw "exportable".
    destruct (negb _ && _); [ cbn [run outcome]; eauto | ].
    destruct (keyType_of _); [ | cbn [run outcome]; eauto ].
    cbn [mbind Prog_bind bind call run outcome].
    destruct (env _ w) as [[[[p lock] upserted] err] w'].
    destruct lock as [l | ], err as [e | ], p as [p | ];
      cbn [with_deferred unlock_if_held call bind run outcome];
      try destruct (env (RUnlock l) w') as [[] w''];
      cbn [run outcome]; eauto.
  - unfold pathPolicyRead.
    valid_string Hv raw "name".
    cbn [mbind Prog_bind bind call run outcome].
    destruct (env _ w) as [[[p lock] err] w'].
    destruct err as [e | ], p as [p | ];
      try (destruct lock as [l | ];
           cbn [with_deferred unlock_if_held call bind run outcome];
           try destruct (env (RUnlock l) w') as [[] w''];
           cbn [run outcome]; eauto; fail).
    valid_string Hv raw "context".
    destruct (if Nat.eqb _ 0 then _ else _) as [context | ];
      cbn [with_deferred run outcome].
    + destruct (env (Policy_Map p context) w') as [[respData [e | ]] w''];
        destruct lock as [l | ];
        cbn [with_deferred unlock_if_held call bind run outcome];
        try destruct (env (RUnlock l) w'') as [[] w3];
        cbn [run outcome]; eauto.
    + destruct lock as [l | ];
        cbn [with_deferred unlock_if_held call bind run outcome];
        try destruct (env (RUnlock l) w') as [[] w''];
        cbn [run outcome]; eauto.
  - unfold pathPolicyDelete.
    valid_string Hv raw "name".
    cbn [mbind Prog_bind bind call run outcome].
    destruct (env _ w) as [[e | ] w']; cbn [run outcome]; eauto.
Qed.

Lemma validated_requests_do_not_panic_witness :
  ∃ result,
    outcome (run nil_env
               (pathPolicyRead base64.DecodeString request0
                  (fieldData orders_key)) tt)
    = Returned result.
Proof.
  apply (validated_requests_do_not_panic nil_env tt base64.DecodeString
           request0 orders_key).
  - vm_compute; reflexivity.
  - apply list_elem_of_further, list_elem_of_further, list_elem_of_here.
Defined.

(** Without the validation the type assertion does panic: a string where
    the schema declares a boolean. *)
Example unvalidated_request_panics :
  let d := fieldData (<["derived" := VString "yes"]> orders_key) in
  validated d = false
  ∧ outcome (run nil_env (pathPolicyWrite request0 d) tt)
    = Panicked "error reading derived".
Proof. split; vm_compute; reflexivity. Qed.

(** ** Requests in sequence *)

Lemma held_after_app (held held' : list RWMutex) (t1 t2 : list Event) :
  held_after held t1 = Some held' →
  held_after held (app t1 t2) = held_after held' t2.
Proof.
  revert held. induction t1 as [ | e t1 IH ]; intros held H; simpl in *.
  - by injection H as ->.
  - destruct (released_by e) as [l | ].
    + destruct (release l held) as [held1 | ]; simpl in *; [ | done ].
      by apply IH.
    + by apply IH.
Qed.

(** The handlers that take no lock leave none held. *)
Lemma list_lock_discipline
    {W : Type} (env : Env W) (w : W) (req : Request) (d : FieldData) :
  held_after [] (trace (run env (pathKeysList req d) w)) = Some [].
Proof.
  unfold pathKeysList. cbn [mbind Prog_bind bind call run trace].
  destruct (env _ w) as [[entries [e | ]] w']; reflexivity.
Qed.

Lemma delete_lock_discipline
    {W : Type} (env : Env W) (w : W) (req : Request) (d : FieldData) :
  held_after [] (trace (run env (pathPolicyDelete req d) w)) = Some [].
Proof.
  unfold pathPolicyDelete.
  field_string d "name" ltac:(idtac; reflexivity).
  cbn [mbind Prog_bind bind call run trace].
  destruct (env _ w) as [[e | ] w']; reflexivity.
Qed.

(** Whatever the two paths dispatch to keeps the lock discipline. *)
Lemma handled_lock_discipline
    {W : Type} (env : Env W) (w : W) (decode : string → option bytes)
    (i : Incoming) (handler : Prog Result) :
  HandleRequest (path_of decode (route i)) (operation i) (request i) (raw i)
    = Some handler →
  held_after [] (trace (run env handler w)) = Some [].
Proof.
  unfold HandleRequest.
  destruct (route i), (operation i); simpl; intros [= <-].
  - apply list_lock_discipline.
  - apply read_lock_discipline.
  - apply write_lock_discipline.
  - apply delete_lock_discipline.
Qed.

(** X14: requests compose: for any sequence of requests on the two paths,
    with any operations, fields and storage, served one after the other
    under any environment, every release in the whole trace is of a lock
    held at that point, and no lock is held after the last request. *)
Theorem serve_leaves_no_lock_held
    {W : Type} (env : Env W) (decode : string → option bytes)
    (reqs : list Incoming) (w : W) :
  held_after [] (serve decode env reqs w).1 = Some [].
Proof.
  revert w. induction reqs as [ | i reqs IH ]; intros w; [ reflexivity | ].
  cbn [serve].
  destruct (HandleRequest _ _ _ _) as [handler | ] eqn:Hh; [ | apply IH ].
  pose proof (handled_lock_discipline env w decode i handler Hh) as Hone.
  specialize (IH (final (run env handler w))).
  destruct (serve decode env reqs (final (run env handler w))) as [t w'].
  cbn [fst] in *. rewrite (held_after_app _ _ _ _ Hone). exact IH.
Qed.
